(** * Weight binarization (XNOR-Net style): the [Binarizer] helper and the
      [BinaryActivation] autograd function of the binary-networks notebook.

    The development has five parts.

    - [Arith]: the scalars of a tensor with the operations torch applies
      to them.  The code is modelled for every such arithmetic; two are
      given, the exact rationals and IEEE 754 binary32 (the [float32] of
      torch) with rounding, overflow, underflow, signed zeros and NaN.
      What is proved of the code is proved for every arithmetic, unless
      the statement names one of the two.
    - [Torch]: the tensor operations the notebook calls ([mean], [norm],
      [sum], [sign], [clamp], [add], [mul], [div], [copy_], [clone],
      indexing), over tensors made of a size and a row-major storage.
    - [Binarizer]: the class of the notebook, as state-passing code over a
      store of [Parameter] objects.  A raised Python exception keeps the
      store as the failing statement left it.
    - [BinaryActivation]: [forward] and [backward] over a heap of tensor
      objects with allocation.
    - [TRL]: the constructor of the tensor regression layer, statement by
      statement, over the sizes of its parameters. *)

From Stdlib Require Import List Arith Lia Bool.
From Stdlib Require Import QArith Qabs Qminmax Lqa.
From Stdlib Require Import SpecFloat.
From stdpp Require Import base list.
Import ListNotations.

Local Open Scope nat_scope.

(** ** Python exceptions and outcomes *)

(** The exceptions of Python the modelled code can raise, and
    [ConfigurationError], which the specification names and no statement
    of the notebook raises. *)
Inductive Exn : Type :=
| IndexError
| RuntimeError
| UnboundLocalError
| ValueError
| ConfigurationError.

Inductive outcome (A : Type) : Type :=
| Ok (a : A)
| Raise (e : Exn).

Arguments Ok {A} a.
Arguments Raise {A} e.

Definition obind {A B} (x : outcome A) (f : A -> outcome B) : outcome B :=
  match x with
  | Ok a => f a
  | Raise e => Raise e
  end.

Definition raises {A} (x : outcome A) : Prop := exists e, x = Raise e.

(** ** Scalars *)

(** What torch does with the scalars of a tensor of floats: a Python
    number becomes a scalar ([of_Z]; the notebook writes [-1], [-1.0],
    [1.0] and the integer [n]); scalars are added, multiplied, divided
    and compared; the reduction kernels [sum], [mean] and [norm(1, ...)]
    take the entries of one slice, in storage order, to one scalar.  No
    law is assumed of them: the order in which a kernel accumulates, and
    how it rounds, is the arithmetic's own. *)
Class Arith (F : Type) : Type := mkArith {
  of_Z : Z -> F;
  fadd : F -> F -> F;
  fmul : F -> F -> F;
  fdiv : F -> F -> F;
  flt : F -> F -> bool;
  feqb : F -> F -> bool;
  fsum : list F -> F;
  fmean : list F -> F;
  fnorm1 : list F -> F
}.

(** The exact rationals.  They have no infinity and no NaN: a quotient
    by zero is 0. *)
Definition Qsum (l : list Q) : Q := fold_right Qplus 0%Q l.

Definition Qltb (x y : Q) : bool :=
  match (x ?= y)%Q with Lt => true | _ => false end.

#[export] Instance Q_arith : Arith Q :=
  mkArith Q inject_Z Qplus Qmult Qdiv Qltb Qeq_bool
    Qsum
    (fun l => (Qsum l / inject_Z (Z.of_nat (length l)))%Q)
    (fun l => Qsum (map Qabs l)).

(** IEEE 754 binary32, as the specification of floating-point numbers of
    the Standard Library gives it (24 bits of precision, exponents up to
    128, rounding to nearest, ties to even).  The reductions accumulate
    from the left. *)
Definition b32_of_Z (z : Z) : spec_float := binary_normalize 24 128 z 0 false.

Definition b32_sum (l : list spec_float) : spec_float :=
  fold_left (SFadd 24 128) l (S754_zero false).

Definition b32_mean (l : list spec_float) : spec_float :=
  SFdiv 24 128 (b32_sum l) (b32_of_Z (Z.of_nat (length l))).

Definition b32_norm1 (l : list spec_float) : spec_float :=
  b32_sum (map SFabs l).

#[export] Instance binary32 : Arith spec_float :=
  mkArith spec_float b32_of_Z (SFadd 24 128) (SFmul 24 128) (SFdiv 24 128)
    SFltb SFeqb b32_sum b32_mean b32_norm1.

(** ** Tensors *)

(** The operations of torch the notebook calls, as the documentation of
    torch gives them. *)
Module Torch.

Abbreviation Shape := (list nat).

Record Tensor (F : Type) : Type := mkTensor { size : Shape; storage : list F }.

Arguments mkTensor {F} size storage.
Arguments size {F} t.
Arguments storage {F} t.

Definition numel (s : Shape) : nat := fold_right Nat.mul 1 s.

(** Row-major offset of a multi-index. *)
Fixpoint offset (s : Shape) (idx : list nat) : nat :=
  match s, idx with
  | _ :: s', i :: idx' => i * numel s' + offset s' idx'
  | _, _ => 0
  end.

(** All multi-indices of a shape, in storage order. *)
Fixpoint indices (s : Shape) : list (list nat) :=
  match s with
  | [] => [[]]
  | n :: s' => concat (map (fun i => map (cons i) (indices s')) (seq 0 n))
  end.

Fixpoint in_range (s : Shape) (idx : list nat) : Prop :=
  match s, idx with
  | [], [] => True
  | n :: s', i :: idx' => i < n /\ in_range s' idx'
  | _, _ => False
  end.

(** Broadcasting: sizes are aligned at their last axis; two axes agree
    when they are equal or one of them is 1. *)
Fixpoint broadcast_rev (a b : list nat) : option (list nat) :=
  match a, b with
  | [], _ => Some b
  | _, [] => Some a
  | x :: a', y :: b' =>
      match broadcast_rev a' b' with
      | Some r =>
          if x =? y then Some (x :: r)
          else if x =? 1 then Some (y :: r)
          else if y =? 1 then Some (x :: r)
          else None
      | None => None
      end
  end.

Definition broadcast_shapes (a b : Shape) : option Shape :=
  option_map (@rev nat) (broadcast_rev (rev a) (rev b)).

(** The index an operand of size [s] is read at, for index [idx] of the
    broadcast result. *)
Definition bidx (s : Shape) (idx : list nat) : list nat :=
  zip_with (fun n i => if n =? 1 then 0 else i) s
           (drop (length idx - length s) idx).

(** [s'] is [s] with some axes reduced to length 1, and the index read
    in a tensor of size [s'] of as many axes as the result. *)
Definition expands (s s' : Shape) : Prop :=
  Forall2 (fun n n' => n' = n \/ n' = 1) s s'.

Definition clip (s : Shape) (idx : list nat) : list nat :=
  zip_with (fun n i => if n =? 1 then 0 else i) s idx.

(** The axes [dims] of a reduction over several axes, as torch checks
    them one after the other: an axis the tensor does not have is an
    [IndexError], an axis given twice a [RuntimeError]. *)
Fixpoint check_dims (rank : nat) (seen dims : list nat) : option Exn :=
  match dims with
  | [] => None
  | d :: dims' =>
      if negb (d <? rank) then Some IndexError
      else if existsb (Nat.eqb d) seen then Some RuntimeError
      else check_dims rank (d :: seen) dims'
  end.

(** Index [idx] with its axes [dims] set to [js]. *)
Definition set_axes (dims js : list nat) (idx : list nat) : list nat :=
  fold_right (fun dj acc => <[fst dj:=snd dj]> acc) idx (zip dims js).

(** A size with its axes [dims] reduced to length 1. *)
Definition keep_dims (dims : list nat) (s : Shape) : Shape :=
  fold_right (fun d acc => <[d:=1]> acc) s dims.

Section WithArith.
Context {F : Type} {AF : Arith F}.

Definition dim (t : Tensor F) : nat := length (size t).

Definition at_ (t : Tensor F) (idx : list nat) : F :=
  nth (offset (size t) idx) (storage t) (of_Z 0).

Definition tabulate (s : Shape) (f : list nat -> F) : Tensor F :=
  mkTensor s (map f (indices s)).

(** Tensor literals: [tensor2 c rows] is [torch.tensor(rows)] for rows of
    [c] scalars each, [tensor3 r c blocks] the same one level up. *)
Definition tensor1 (v : list F) : Tensor F := mkTensor [length v] v.

Definition tensor2 (cols : nat) (rows : list (list F)) : Tensor F :=
  mkTensor [length rows; cols] (concat rows).

Definition tensor3 (rows cols : nat) (blocks : list (list (list F))) : Tensor F :=
  mkTensor [length blocks; rows; cols] (concat (map (@concat F) blocks)).

(** [t.clone()]: a tensor of its own with the same size and values. *)
Definition clone (t : Tensor F) : Tensor F := t.

(** [t.nelement()] *)
Definition nelement (t : Tensor F) : nat := numel (size t).

(** [t[0]]: [IndexError] on a 0-dim tensor and on an empty first axis. *)
Definition getitem0 (t : Tensor F) : outcome (Tensor F) :=
  match size t with
  | [] => Raise IndexError
  | n :: s' =>
      if n =? 0 then Raise IndexError
      else Ok (tabulate s' (fun idx => at_ t (0 :: idx)))
  end.

(** Elementwise operations. *)
Definition tmap (f : F -> F) (t : Tensor F) : Tensor F :=
  tabulate (size t) (fun idx => f (at_ t idx)).

(** The sign of a scalar as torch computes it, [(0 < x) - (x < 0)]: 1,
    -1, and 0 for what is neither above nor below zero. *)
Definition sgn (x : F) : F :=
  if flt (of_Z 0) x then of_Z 1
  else if flt x (of_Z 0) then of_Z (-1)
  else of_Z 0.

Definition sign (t : Tensor F) : Tensor F := tmap sgn t.

(** [min(max(x, lo), hi)]; a scalar that compares with neither bound (a
    NaN) stays. *)
Definition clamp1 (lo hi x : F) : F :=
  if flt x lo then lo else if flt hi x then hi else x.

Definition clamp (lo hi : F) (t : Tensor F) : Tensor F :=
  tmap (clamp1 lo hi) t.

Definition mul_scalar (t : Tensor F) (c : F) : Tensor F :=
  tmap (fun x => fmul x c) t.

Definition div_scalar (t : Tensor F) (n : nat) : Tensor F :=
  tmap (fun x => fdiv x (of_Z (Z.of_nat n))) t.

Definition binop (f : F -> F -> F) (a b : Tensor F) : outcome (Tensor F) :=
  match broadcast_shapes (size a) (size b) with
  | Some r =>
      Ok (tabulate r (fun idx =>
            f (at_ a (bidx (size a) idx)) (at_ b (bidx (size b) idx))))
  | None => Raise RuntimeError
  end.

Definition add : Tensor F -> Tensor F -> outcome (Tensor F) := binop fadd.
Definition mul : Tensor F -> Tensor F -> outcome (Tensor F) := binop fmul.

(** [dst.copy_(src)]: the values of [src], broadcast to the size of
    [dst]; the size of [dst] stays.  Equal sizes copy the storage. *)
Definition copy_ (dst src : Tensor F) : outcome (Tensor F) :=
  if decide (size dst = size src) then Ok (mkTensor (size dst) (storage src))
  else
    match broadcast_shapes (size dst) (size src) with
    | Some r =>
        if decide (r = size dst) then
          Ok (tabulate (size dst) (fun idx => at_ src (bidx (size src) idx)))
        else Raise RuntimeError
    | None => Raise RuntimeError
    end.

(** The entries of [t] along axis [d] through [idx], in storage order. *)
Definition along (d : nat) (t : Tensor F) (idx : list nat) : list F :=
  map (fun k => at_ t (<[d:=k]> idx)) (seq 0 (nth d (size t) 0)).

(** Reductions along one axis with [keepdim=True]: the axis stays, with
    length 1, and the kernel is applied to each slice.  An axis the
    tensor does not have is an [IndexError]. *)
Definition reduce (kernel : list F -> F) (d : nat) (t : Tensor F)
  : outcome (Tensor F) :=
  if d <? dim t then
    Ok (tabulate (<[d:=1]> (size t)) (fun idx => kernel (along d t idx)))
  else Raise IndexError.

(** The entries of [t] over the axes [dims] through [idx], in the order
    of the indices of those axes. *)
Definition over (dims : list nat) (t : Tensor F) (idx : list nat) : list F :=
  map (fun js => at_ t (set_axes dims js idx))
      (indices (map (fun d => nth d (size t) 0) dims)).

(** [t.sum(dims, keepdim=True)]: one reduction over the axes [dims]. *)
Definition sum (dims : list nat) (t : Tensor F) : outcome (Tensor F) :=
  match check_dims (dim t) [] dims with
  | Some e => Raise e
  | None =>
      Ok (tabulate (keep_dims dims (size t)) (fun idx => fsum (over dims t idx)))
  end.

(** [t.norm(1, d, keepdim=True)] *)
Definition norm1 (d : nat) (t : Tensor F) : outcome (Tensor F) :=
  reduce fnorm1 d t.

(** [t.mean(d, keepdim=True)] *)
Definition mean (d : nat) (t : Tensor F) : outcome (Tensor F) :=
  reduce fmean d t.

End WithArith.

End Torch.

(** ** The [Binarizer] class *)

Module Binarizer.
Import Torch.

(** A [Parameter] object is a reference; [data] of the state below gives
    the tensor it holds.  Rebinding [m.data = v] and writing into it with
    [m.data.copy_(v)] both leave parameter [m] holding [v]: nothing else
    refers to the tensor behind [m.data]. *)
Definition ParamId := nat.

(** What [model.modules()] yields, in order: each module with its class
    and the parameters it owns. *)
Inductive Module_ : Type :=
| Conv2d (weight : ParamId) (bias : option ParamId)
| Linear (weight : ParamId) (bias : option ParamId)
| BatchNorm (weight bias : option ParamId)
| OtherModule.

(** The attributes of a [Binarizer] object.  The shadow buffers are
    clones owned by the object, so they are kept by value. *)
Record Self (F : Type) : Type := mkSelf {
  saved_params : list (Tensor F);
  target_modules : list ParamId;
  num_of_params : nat
}.

Arguments mkSelf {F} saved_params target_modules num_of_params.
Arguments saved_params {F} s.
Arguments target_modules {F} s.
Arguments num_of_params {F} s.

Record State (F : Type) : Type := mkState {
  data : ParamId -> Tensor F;
  self : Self F
}.

Arguments mkState {F} data self.
Arguments data {F} s _.
Arguments self {F} s.

(** [l[1:-1]] *)
Definition slice_1_m1 {X} (l : list X) : list X :=
  take (length l - 1 - 1) (drop 1 l).

(** [isinstance(m, nn.Conv2d) or isinstance(m, nn.Linear)], with the
    weight of the module when it holds. *)
Definition eligible (m : Module_) : option ParamId :=
  match m with
  | Conv2d w _ => Some w
  | Linear w _ => Some w
  | _ => None
  end.

(** State-passing code that may raise. *)
Definition M (F X : Type) : Type := State F -> State F * outcome X.

Section WithArith.
Context {F : Type} {AF : Arith F}.

Definition ret {X} (a : X) : M F X := fun st => (st, Ok a).

Definition raise {X} (e : Exn) : M F X := fun st => (st, Raise e).

Definition bind {X Y} (c : M F X) (k : X -> M F Y) : M F Y :=
  fun st =>
    match c st with
    | (st', Ok a) => k a st'
    | (st', Raise e) => (st', Raise e)
    end.

Definition lift {X} (x : outcome X) : M F X := fun st => (st, x).

Notation "'let*' x ':=' c 'in' k" := (bind c (fun x => k))
  (at level 10, x name, c at level 100, k at level 200).
Notation "c '>>' k" := (bind c (fun _ => k))
  (at level 190, k at level 200, right associativity).

(** [for x in l: body] *)
Fixpoint for_each {X} (l : list X) (body : X -> M F unit) : M F unit :=
  match l with
  | [] => ret tt
  | x :: l' => body x >> for_each l' body
  end.

(** [for x in l: body], with a local variable carried from one
    iteration to the next. *)
Fixpoint for_with {X V} (l : list X) (body : V -> X -> M F V) (v : V) : M F V :=
  match l with
  | [] => ret v
  | x :: l' => let* v' := body v x in for_with l' body v'
  end.

Definition get_data (m : ParamId) : M F (Tensor F) :=
  fun st => (st, Ok (data st m)).

Definition set_data (m : ParamId) (v : Tensor F) : M F unit :=
  fun st =>
    (mkState (fun p => if decide (p = m) then v else data st p) (self st),
     Ok tt).

Definition get_saved_params : M F (list (Tensor F)) :=
  fun st => (st, Ok (saved_params (self st))).

Definition get_target_modules : M F (list ParamId) :=
  fun st => (st, Ok (target_modules (self st))).

Definition get_num_of_params : M F nat :=
  fun st => (st, Ok (num_of_params (self st))).

Definition set_saved_params (l : list (Tensor F)) : M F unit :=
  fun st =>
    (mkState (data st)
       (mkSelf l (target_modules (self st)) (num_of_params (self st))),
     Ok tt).

Definition set_target_modules (l : list ParamId) : M F unit :=
  fun st =>
    (mkState (data st)
       (mkSelf (saved_params (self st)) l (num_of_params (self st))),
     Ok tt).

Definition set_num_of_params (n : nat) : M F unit :=
  fun st =>
    (mkState (data st)
       (mkSelf (saved_params (self st)) (target_modules (self st)) n),
     Ok tt).

(** [l[i]] for [i] from a [range]: [IndexError] past the end. *)
Definition getitem {X} (l : list X) (i : nat) : M F X :=
  match l !! i with
  | Some x => ret x
  | None => raise IndexError
  end.

(** [Binarizer(model, ignore_first_last)] *)
Definition __init__ (model : list Module_) (ignore_first_last : bool) : M F unit :=
  set_saved_params [] >>
  set_target_modules [] >>
  for_each model (fun m =>
    match eligible m with
    | Some w =>
        let* d := get_data w in
        let* sp := get_saved_params in
        set_saved_params (sp ++ [clone d]) >>
        let* tm := get_target_modules in
        set_target_modules (tm ++ [w])
    | None => ret tt
    end) >>
  let* tm := get_target_modules in
  (if ignore_first_last && (2 <? length tm) then
     let* sp := get_saved_params in
     set_saved_params (slice_1_m1 sp) >>
     let* tm := get_target_modules in
     set_target_modules (slice_1_m1 tm)
   else ret tt) >>
  let* tm := get_target_modules in
  set_num_of_params (length tm).

(** [self.saved_params[i].copy_(self.target_modules[i].data)] for [i] in
    [range(len(self.saved_params))]. *)
Definition _save_params : M F unit :=
  let* sp := get_saved_params in
  for_each (seq 0 (length sp)) (fun i =>
    let* sp := get_saved_params in
    let* buf := getitem sp i in
    let* tm := get_target_modules in
    let* m := getitem tm i in
    let* d := get_data m in
    let* buf' := lift (copy_ buf d) in
    let* sp := get_saved_params in
    set_saved_params (<[i:=buf']> sp)).

(** The scale of one weight, as the two branches of the loop body
    compute it; [None] when neither branch is taken and [mean] is not
    assigned. *)
Definition scale (d : Tensor F) (n : nat) : outcome (option (Tensor F)) :=
  let s := size d in
  if length s =? 4 then
    obind (norm1 3 d) (fun a =>
    obind (sum [1; 2] a) (fun b =>
    Ok (Some (div_scalar b n))))
  else if length s =? 2 then
    obind (norm1 1 d) (fun a =>
    Ok (Some (div_scalar a n)))
  else Ok None.

(** The local [mean] lives across iterations: [None] is the unbound
    local, and an iteration that assigns nothing reads the value of the
    iteration before. *)
Definition _binarize_weights : M F unit :=
  let* tm := get_target_modules in
  let* _ := for_with tm (fun (mean : option (Tensor F)) m =>
    let* d := get_data m in
    let* d0 := lift (getitem0 d) in
    let n := nelement d0 in
    let* d := get_data m in
    let* assigned := lift (scale d n) in
    let mean := match assigned with Some v => Some v | None => mean end in
    let* d := get_data m in
    match mean with
    | Some mean_v =>
        let* r := lift (mul (sign d) mean_v) in
        set_data m r >>
        ret mean
    | None => raise UnboundLocalError
    end) None in
  ret tt.

(** The first loop of [binarize_weights]: mean center, then clamp. *)
Definition center_and_clamp : M F unit :=
  let* tm := get_target_modules in
  for_each tm (fun m =>
    let* d := get_data m in
    let* mu := lift (mean 1 d) in
    let neg_mean := mul_scalar mu (of_Z (-1)) in
    let* d := get_data m in
    let* r := lift (add d neg_mean) in
    set_data m r >>
    let* d := get_data m in
    set_data m (clamp (of_Z (-1)) (of_Z 1) d)).

(** The loop, then [self._save_params()], then
    [self._binarize_weights()]. *)
Definition binarize_weights : M F unit :=
  center_and_clamp >>
  _save_params >>
  _binarize_weights.

(** [self.target_modules[index].data.copy_(self.saved_params[index])]
    for [index] in [range(self.num_of_params)]. *)
Definition restore_weights : M F unit :=
  let* n := get_num_of_params in
  for_each (seq 0 n) (fun index =>
    let* tm := get_target_modules in
    let* m := getitem tm index in
    let* d := get_data m in
    let* sp := get_saved_params in
    let* buf := getitem sp index in
    let* d' := lift (copy_ d buf) in
    set_data m d').

(** [update_weight_gradients]: the loop reads each weight and does
    nothing with it; the rest of the body is a comment. *)
Definition update_weight_gradients : M F unit :=
  let* tm := get_target_modules in
  for_each tm (fun module =>
    let* weight := get_data module in
    ret tt).

End WithArith.

Notation "'let*' x ':=' c 'in' k" := (bind c (fun x => k))
  (at level 10, x name, c at level 100, k at level 200).
Notation "c '>>' k" := (bind c (fun _ => k))
  (at level 190, k at level 200, right associativity).

End Binarizer.

(** ** The [BinaryActivation] autograd function *)

Module BinaryActivation.
Import Torch.

(** Tensor objects live in a heap; a reference below [next] is an object
    that exists, and a new tensor takes the reference [next]. *)
Definition Ref := nat.

Record Heap (F : Type) : Type := mkHeap { cell : Ref -> Tensor F; next : Ref }.

Arguments mkHeap {F} cell next.
Arguments cell {F} h _.
Arguments next {F} h.

Record Ctx : Type := mkCtx { saved_tensors : list Ref }.

(** [ctx.save_for_backward(input)] keeps the reference, not a copy. *)
Definition save_for_backward (ctx : Ctx) (input : Ref) : Ctx :=
  mkCtx [input].

Section WithArith.
Context {F : Type} {AF : Arith F}.

Definition alloc (v : Tensor F) (h : Heap F) : Heap F * Ref :=
  (mkHeap (fun r => if decide (r = next h) then v else cell h r) (S (next h)),
   next h).

Definition forward (ctx : Ctx) (input : Ref) (h : Heap F)
  : Heap F * Ctx * Ref :=
  let ctx := save_for_backward ctx input in
  let (h, out) := alloc (sign (cell h input)) h in
  (h, ctx, out).

(** [input, = ctx.saved_tensors] needs exactly one saved tensor. *)
Definition backward (ctx : Ctx) (grad_output : Ref) (h : Heap F)
  : Heap F * outcome Ref :=
  match saved_tensors ctx with
  | [input] =>
      let (h, grad_input) := alloc (clone (cell h grad_output)) h in
      (h, Ok grad_input)
  | _ => (h, Raise ValueError)
  end.

End WithArith.

(** Heaps used as examples. *)
Definition one_tensor_heap : Heap Q :=
  mkHeap (fun _ => tensor1 [2; 0; -3]%Q) 1.

Definition two_tensor_heap : Heap Q :=
  mkHeap (fun r => if decide (r = 0) then tensor1 [2; 0; -3]%Q
                   else tensor1 [5; 7; -1]%Q) 2.

End BinaryActivation.

(** ** The [TRL] class *)

Module TRL.

(** A value passed for a size: one [int], or a tuple or list of them.
    The sizes are natural numbers: a negative one is refused by
    [tl.zeros] and is outside this model. *)
Inductive Value : Type :=
| PyInt (n : nat)
| PySeq (l : list nat).

(** The constructor returns, or a statement of it raises [TypeError]. *)
Inductive built (A : Type) : Type :=
| Built (a : A)
| TypeError.
Arguments Built {A} a.
Arguments TypeError {A}.

Definition bbind {A B} (c : built A) (k : A -> built B) : built B :=
  match c with Built a => k a | TypeError => TypeError end.

Notation "'let+' x ':=' c 'in' k" := (bbind c (fun x => k))
  (at level 10, x name, c at level 100, k at level 200).

(** [isinstance(v, int)]. *)
Definition isinstance_int (v : Value) : bool :=
  match v with PyInt _ => true | PySeq _ => false end.

(** [list(v)]: an [int] is not iterable. *)
Definition list_ (v : Value) : built (list Value) :=
  match v with PyInt _ => TypeError | PySeq l => Built (map PyInt l) end.

(** [v[1:]]: an [int] is not subscriptable. *)
Definition from_1 (v : Value) : built (list Value) :=
  match v with PyInt _ => TypeError | PySeq l => Built (map PyInt (tail l)) end.

(** What [tl.zeros] and [np.prod] accept as one dimension. *)
Definition as_int (v : Value) : built nat :=
  match v with PyInt n => Built n | PySeq _ => TypeError end.

Fixpoint as_ints (l : list Value) : built (list nat) :=
  match l with
  | [] => Built []
  | v :: l => let+ n := as_int v in let+ ns := as_ints l in Built (n :: ns)
  end.

(** The product of a list of sizes as a Python integer. *)
Definition exact_prod (l : list nat) : Z :=
  fold_right (fun n z => (Z.of_nat n * z)%Z) 1%Z l.

(** A 64-bit two's complement integer, and an unsigned one. *)
Definition wrap_int64 (z : Z) : Z := ((z + 2 ^ 63) mod 2 ^ 64 - 2 ^ 63)%Z.

Definition wrap_uint64 (z : Z) : Z := (z mod 2 ^ 64)%Z.

(** [int(np.prod(l))] for a list of Python ints that are not negative,
    where the default integer of numpy has 64 bits: the list becomes an
    array of [int64] when every entry is below 2^63, of [uint64] when
    every entry is below 2^64, of Python objects otherwise.  The product
    of an array of machine integers wraps around; that of objects, and
    that of the empty list (the float 1.0), is exact. *)
Definition np_prod (l : list nat) : Z :=
  if forallb (fun n => (Z.of_nat n <? 2 ^ 63)%Z) l then
    wrap_int64 (exact_prod l)
  else if forallb (fun n => (Z.of_nat n <? 2 ^ 64)%Z) l then
    wrap_uint64 (exact_prod l)
  else exact_prod l.

(** The attributes of the layer; of the parameters [core], [bias] and
    [factors], the sizes: their entries are drawn by [uniform_]. *)
Record Layer : Type := mkLayer {
  ranks : list Value;
  verbose : nat;
  input_size : list Value;
  output_size : list Value;
  n_outputs : Z;
  core : list nat;
  bias : list nat;
  factors : list (list nat)
}.

(** The loop over [zip(weight_size, ranks)]: one factor of size
    [(in_size, rank)] each time round. *)
Fixpoint add_factors (pairs : list (Value * Value)) (factors : list (list nat))
  : built (list (list nat)) :=
  match pairs with
  | [] => Built factors
  | (in_size, rank) :: pairs =>
      let+ n := as_int in_size in
      let+ r := as_int rank in
      add_factors pairs (factors ++ [[n; r]])
  end.

Definition __init__ (input_size ranks output_size : Value) (verbose : nat)
  : built Layer :=
  let+ self_ranks := list_ ranks in
  let+ self_input_size :=
    if isinstance_int output_size then Built [input_size]
    else list_ input_size in
  let+ self_output_size :=
    if isinstance_int output_size then Built [output_size]
    else list_ output_size in
  let+ rest := from_1 output_size in
  let+ dims := as_ints rest in
  let n_outputs := np_prod dims in
  let+ core := as_ints self_ranks in
  let bias := [1] in
  let weight_size := tail self_input_size ++ tail self_output_size in
  let+ ranks_again := list_ ranks in
  let+ factors := add_factors (zip weight_size ranks_again) [] in
  Built (mkLayer self_ranks verbose self_input_size self_output_size
           n_outputs core bias factors).

End TRL.

(** ** Vocabulary of the statements *)

Module BinarizerSpec.
Import Torch Binarizer.

(** The weights of the convolution and linear layers of a model, in the
    order [model.modules()] gives them. *)
Definition eligible_weights (model : list Module_) : list ParamId :=
  omap eligible model.

(** The list construction leaves in [target_modules]. *)
Definition tracked (model : list Module_) (ignore_first_last : bool)
  : list ParamId :=
  let el := eligible_weights model in
  if ignore_first_last && (2 <? length el) then slice_1_m1 el else el.

(** The notebook's [Net], as [modules()] lists it: the container, then
    [conv1], [bn2], [conv2], [bn_fc1], [fc1], [fc2]; parameters are
    numbered in that order, weight before bias. *)
Definition Net : list Module_ :=
  [OtherModule;
   Conv2d 0 (Some 1);
   BatchNorm (Some 2) (Some 3);
   Conv2d 4 (Some 5);
   BatchNorm (Some 6) (Some 7);
   Linear 8 (Some 9);
   Linear 10 (Some 11)].

(** The index of the scale of channel [o] in a scale tensor of [r] axes. *)
Definition scale_index (r o : nat) : list nat := o :: repeat 0 (r - 1).

Definition opt_list {X} (o : option X) : list X :=
  match o with Some x => [x] | None => [] end.

(** The parameters a module owns that are not the weight of a
    convolution or linear layer: biases, and what batch normalization
    holds. *)
Definition other_parameters (m : Module_) : list ParamId :=
  match m with
  | Conv2d _ b => opt_list b
  | Linear _ b => opt_list b
  | BatchNorm w b => opt_list w ++ opt_list b
  | OtherModule => []
  end.

Definition parameters (m : Module_) : list ParamId :=
  opt_list (eligible m) ++ other_parameters m.

(** What the exclusion policy and the class test leave untracked in a
    model that shares no parameter: the biases, the batch-normalization
    parameters and, of three eligible weights or more, the first and the
    last. *)
Definition kept_real (model : list Module_) (p : ParamId) : Prop :=
  In p (flat_map other_parameters model) \/
  exists first mid last,
    eligible_weights model = first :: mid ++ [last] /\ mid <> [] /\
    (p = first \/ p = last).

Section WithArith.
Context {F : Type} {AF : Arith F}.

(** A state before construction: every parameter holds [t]. *)
Definition blank (t : Tensor F) : State F :=
  mkState (fun _ => t) (mkSelf [] [] 0).

(** What [nn.Conv2d] and [nn.Linear] give their weight: four or two axes,
    the first one (output channels or units) not empty. *)
Definition supported (t : Tensor F) : bool :=
  ((dim t =? 2) || (dim t =? 4)) && negb (hd 0 (size t) =? 0).

(** The state of a [Binarizer] on such a model: one shadow buffer per
    tracked entry, of the size of its parameter.  Two tracked layers may
    share their weight. *)
Definition aligned (st : State F) : bool :=
  (length (saved_params (self st)) =? length (target_modules (self st))) &&
  (num_of_params (self st) =? length (target_modules (self st))) &&
  forallb (fun mb => supported (data st (fst mb)) &&
                     bool_decide (size (snd mb) = size (data st (fst mb))))
          (zip (target_modules (self st)) (saved_params (self st))).

(** The same when no weight is shared: every parameter is tracked once. *)
Definition well_formed (st : State F) : bool :=
  bool_decide (NoDup (target_modules (self st))) && aligned st.

(** [k] times [binarize_weights(); restore_weights()], nothing between. *)
Fixpoint cycles (k : nat) : M F unit :=
  match k with
  | 0 => ret tt
  | S k' => cycles k' >> binarize_weights >> restore_weights
  end.

(** Running [c] from [st] raises. *)
Definition raises_in {X} (c : M F X) (st : State F) : Prop :=
  raises (snd (c st)).

(** A count as a scalar. *)
Definition of_nat (n : nat) : F := of_Z (Z.of_nat n).

(** Centering and clamping of one entry, in the arithmetic of the
    tensor: the [mean] kernel is applied to the entries along axis 1
    through the entry (the row of a rank-2 weight, the input channels of
    a rank-4 weight), the mean is multiplied by -1 and added to the
    entry, and the sum is clamped to [-1, 1]. *)
Definition mean_spec (w : Tensor F) (idx : list nat) : F :=
  fmean (along 1 w idx).

Definition center_clamp_spec (w : Tensor F) (idx : list nat) : F :=
  clamp1 (of_Z (-1)) (of_Z 1)
         (fadd (at_ w idx) (fmul (mean_spec w idx) (of_Z (-1)))).

(** The scale of output channel or unit [o], in the arithmetic of the
    tensor: for a rank-2 weight the L1 norm of row [o] divided by the
    number of input units; for a rank-4 weight the L1 norms along the
    last axis, summed over input channels and kernel height, divided by
    the number of entries of one output channel. *)
Definition scale_spec (w : Tensor F) (o : nat) : F :=
  match size w with
  | [_; n_in] =>
      fdiv (fnorm1 (map (fun k => at_ w [o; k]) (seq 0 n_in)))
           (of_nat (numel [n_in]))
  | [_; n_in; kh; kw] =>
      fdiv (fsum (map (fun ch =>
                    fnorm1 (map (fun x => at_ w (o :: ch ++ [x])) (seq 0 kw)))
                  (indices [n_in; kh])))
           (of_nat (numel [n_in; kh; kw]))
  | _ => of_Z 0
  end.

(** A scalar that equals zero. *)
Definition is_zero (x : F) : Prop := feqb x (of_Z 0) = true.

(** What the zero of an arithmetic obeys, in the rationals and in IEEE
    754 alike: the norm and the sum of zeros are zero, zero divided by a
    count that is not zero is zero, and a sign times zero is zero. *)
Record ZeroLaws : Prop := mkZeroLaws {
  fnorm1_zero : forall l, Forall is_zero l -> is_zero (fnorm1 l);
  fsum_zero : forall l, Forall is_zero l -> is_zero (fsum l);
  fdiv_zero : forall x n, is_zero x -> n <> 0 -> is_zero (fdiv x (of_nat n));
  fmul_zero : forall x y, is_zero y -> is_zero (fmul (sgn x) y)
}.

(** One pass of the body of the first loop of [binarize_weights], as a
    function of the value of the parameter. *)
Definition center_clamp (d : Tensor F) : outcome (Tensor F) :=
  obind (mean 1 d) (fun mu =>
  obind (add d (mul_scalar mu (of_Z (-1)))) (fun r =>
  Ok (clamp (of_Z (-1)) (of_Z 1) r))).

(** One pass of the body of the loop of [_binarize_weights] on a weight
    for which one of the two branches assigns [mean]. *)
Definition binarize_tensor (d : Tensor F) : outcome (Tensor F) :=
  obind (getitem0 d) (fun d0 =>
  obind (scale d (nelement d0)) (fun assigned =>
  match assigned with
  | Some mean_v => mul (sign d) mean_v
  | None => Raise UnboundLocalError
  end)).

(** The bodies of the four loops, named. *)
Definition center_body (m : ParamId) : M F unit :=
    let* d := get_data m in
    let* mu := lift (mean 1 d) in
    let neg_mean := mul_scalar mu (of_Z (-1)) in
    let* d := get_data m in
    let* r := lift (add d neg_mean) in
    set_data m r >>
    let* d := get_data m in
    set_data m (clamp (of_Z (-1)) (of_Z 1) d).

(** [body m] replaces the value [d] of parameter [m] by [g d], and
    changes nothing when [g d] raises. *)
Definition updates (body : ParamId -> M F unit)
           (g : Tensor F -> outcome (Tensor F)) : Prop :=
  forall m st,
    match g (data st m) with
    | Ok v =>
        exists st', body m st = (st', Ok tt) /\ self st' = self st /\
          forall p, data st' p = if decide (p = m) then v else data st p
    | Raise e => body m st = (st, Raise e)
    end.

Definition binarize_body (mean : option (Tensor F)) (m : ParamId)
  : M F (option (Tensor F)) :=
    let* d := get_data m in
    let* d0 := lift (getitem0 d) in
    let n := nelement d0 in
    let* d := get_data m in
    let* assigned := lift (scale d n) in
    let mean := match assigned with Some v => Some v | None => mean end in
    let* d := get_data m in
    match mean with
    | Some mean_v =>
        let* r := lift (mul (sign d) mean_v) in
        set_data m r >>
        ret mean
    | None => raise UnboundLocalError
    end.

Definition save_body (i : nat) : M F unit :=
    let* sp := get_saved_params in
    let* buf := getitem sp i in
    let* tm := get_target_modules in
    let* m := getitem tm i in
    let* d := get_data m in
    let* buf' := lift (copy_ buf d) in
    let* sp := get_saved_params in
    set_saved_params (<[i:=buf']> sp).

Definition restore_body (index : nat) : M F unit :=
    let* tm := get_target_modules in
    let* m := getitem tm index in
    let* d := get_data m in
    let* sp := get_saved_params in
    let* buf := getitem sp index in
    let* d' := lift (copy_ d buf) in
    set_data m d'.

(** Code that keeps the relation [R] between the state before and the
    state it leaves, normally or not, and never raises
    [ConfigurationError]. *)
Definition respects (R : State F -> State F -> Prop) {X} (c : M F X) : Prop :=
  forall st, R st (fst (c st)) /\ snd (c st) <> Raise ConfigurationError.

(** The exceptions torch and Python raise in the modelled statements,
    and code that raises no other. *)
Definition python_error (e : Exn) : Prop :=
  e = IndexError \/ e = RuntimeError \/ e = UnboundLocalError.

Definition raises_python {X} (c : M F X) : Prop :=
  forall st e, snd (c st) = Raise e -> python_error e.

(** With [T] tracked: [T] stays, and no parameter outside [T] changes. *)
Definition frame (T : list ParamId) (st st' : State F) : Prop :=
  target_modules (self st) = T ->
  target_modules (self st') = T /\
  forall p, ~ In p T -> data st' p = data st p.

(** The same, and no parameter changes its size. *)
Definition calm (T : list ParamId) (st st' : State F) : Prop :=
  target_modules (self st) = T ->
  target_modules (self st') = T /\
  (forall p, ~ In p T -> data st' p = data st p) /\
  (forall p, size (data st' p) = size (data st p)).

(** [aligned] and [well_formed], as propositions. *)
Record Aligned (st : State F) : Prop := mkAligned {
  al_saved :
    length (saved_params (self st)) = length (target_modules (self st));
  al_num : num_of_params (self st) = length (target_modules (self st));
  al_sizes : forall i m b,
    target_modules (self st) !! i = Some m ->
    saved_params (self st) !! i = Some b ->
    supported (data st m) = true /\ size b = size (data st m)
}.

Record Inv (st : State F) : Prop := mkInv {
  inv_nodup : NoDup (target_modules (self st));
  inv_al : Aligned st
}.

(** The attributes of the object are as before, the shadow store at its
    length. *)
Definition same_attributes (st st' : State F) : Prop :=
  target_modules (self st') = target_modules (self st) /\
  num_of_params (self st') = num_of_params (self st) /\
  length (saved_params (self st')) = length (saved_params (self st)).

(** The object is as before, shadow buffers included. *)
Definition same_self (st st' : State F) : Prop := self st' = self st.

End WithArith.

Arguments ZeroLaws F {AF}.

(** States used as examples, in exact arithmetic: three linear layers,
    the middle one tracked. *)
Definition example_weight : Tensor Q := tensor2 2 [[3; -1]; [0; 0]]%Q.

Definition example_state : State Q :=
  fst (__init__ [Linear 0 None; Linear 1 None; Linear 2 None] true
         (blank example_weight)).

(** A weight whose second row is zero. *)
Definition half_zero_weight : Tensor Q := tensor2 2 [[1; -1]; [0; 0]]%Q.

Definition half_zero_state : State Q :=
  fst (__init__ [Linear 0 None; Linear 1 None; Linear 2 None] true
         (blank half_zero_weight)).

(** A weight that has been given three axes, of sizes 1, 2 and 2. *)
Definition rank3_weight : Tensor Q := tensor3 2 2 [[[1; -1]; [-1; 1]]]%Q.

(** It is tracked after a rank-2 weight. *)
Definition stale_state : State Q :=
  fst (__init__ [Linear 2 None; Linear 0 None; Linear 1 None; Linear 3 None]
         true
         (mkState (fun p => if decide (p = 1) then rank3_weight
                            else half_zero_weight)
                  (mkSelf [] [] 0))).

(** It is tracked alone. *)
Definition rank3_state : State Q :=
  fst (__init__ [Linear 0 None; Linear 1 None; Linear 2 None] true
         (blank rank3_weight)).

(** A tracked weight with one axis. *)
Definition rank1_state : State Q :=
  fst (__init__ [Linear 0 None; Linear 1 None; Linear 2 None] true
         (blank (tensor1 [1; 2]%Q))).

(** A tracked weight of size (0, 2). *)
Definition empty_axis_state : State Q :=
  fst (__init__ [Linear 0 None; Linear 1 None; Linear 2 None] true
         (blank (tensor2 2 []))).

(** A weight of size (1, 3) whose shadow buffer has size (1, 2). *)
Definition mismatch_state : State Q :=
  mkState (fun _ => tensor2 3 [[1; 2; 3]]%Q)
          (mkSelf [tensor2 2 [[1; 2]]%Q] [0] 1).

(** States in binary32.  A scalar of binary32 from an integer. *)
Definition f32 (z : Z) : spec_float := b32_of_Z z.

(** A weight of two rows, tracked once. *)
Definition float_weight : Tensor spec_float :=
  tensor2 3 [[f32 3; f32 0; f32 0]; [f32 1; f32 0; f32 (-1)]].

Definition float_state : State spec_float :=
  fst (__init__ [Linear 0 None; Linear 1 None; Linear 2 None] true
         (blank float_weight)).

(** The same weight shared by the two tracked layers of four. *)
Definition tied_state : State spec_float :=
  fst (__init__ [Linear 0 None; Linear 1 None; Linear 1 None; Linear 2 None]
         true (blank float_weight)).

(** The same in exact arithmetic. *)
Definition tied_weight : Tensor Q := tensor2 3 [[3; 0; 0]; [1; 0; -1]]%Q.

Definition tied_exact_state : State Q :=
  fst (__init__ [Linear 0 None; Linear 1 None; Linear 1 None; Linear 2 None]
         true (blank tied_weight)).

(** A row that holds the least positive number of binary32, and a row of
    zeros; a row of two numbers whose sum overflows. *)
Definition tiny : spec_float := S754_finite false 1 (-149).

Definition tiny_state : State spec_float :=
  fst (__init__ [Linear 0 None; Linear 1 None; Linear 2 None] true
         (blank (tensor2 4 [[tiny; f32 0; f32 0; f32 0];
                            [f32 0; f32 0; f32 0; f32 0]]))).

Definition huge : spec_float := b32_of_Z (3 * 10 ^ 38).

Definition huge_state : State spec_float :=
  fst (__init__ [Linear 0 None; Linear 1 None; Linear 2 None] true
         (blank (tensor2 2 [[huge; huge]]))).

(** A convolution weight of size (1, 2, 1, 2) with one infinite entry. *)
Definition inf_weight : Tensor spec_float :=
  mkTensor [1; 2; 1; 2] [S754_infinity false; f32 0; f32 0; f32 0].

Definition inf_state : State spec_float :=
  fst (__init__ [Linear 0 None; Conv2d 1 None; Linear 2 None] true
         (blank inf_weight)).

End BinarizerSpec.

(** * Properties of the tensor operations *)

Module TorchFacts.
Import Torch Binarizer BinarizerSpec.

Section WithArith.
Context {F : Type} {AF : Arith F}.

Lemma in_range_length (s : Shape) (idx : list nat) :
  in_range s idx -> length idx = length s.
Proof.
  revert idx; induction s as [|n s IH]; intros [|i idx]; simpl; try tauto.
  intros [_ H]. f_equal. auto.
Qed.

Lemma length_indices (s : Shape) : length (indices s) = numel s.
Proof.
  induction s as [|n s IH]; simpl; [reflexivity|].
  generalize 0 at 1. induction n as [|n IHn]; intros start; simpl.
  - reflexivity.
  - rewrite length_app, length_map, IH, IHn. reflexivity.
Qed.

Lemma offset_lt (s : Shape) (idx : list nat) :
  in_range s idx -> offset s idx < numel s.
Proof.
  revert idx; induction s as [|n s IH]; intros [|i idx]; simpl; try tauto.
  - lia.
  - intros [Hi H]. specialize (IH _ H). nia.
Qed.

Lemma nth_concat_blocks {A} (g : nat -> list A) (m n : nat) (d : A) :
  (forall k, length (g k) = m) ->
  forall i j start, i < n -> j < m ->
  nth (i * m + j) (concat (map g (seq start n))) d = nth j (g (start + i)) d.
Proof.
  intros Hg. induction n as [|n IH]; intros i j start Hi Hj; [lia|].
  simpl. destruct i as [|i].
  - simpl. rewrite app_nth1 by (rewrite Hg; lia).
    now rewrite Nat.add_0_r.
  - rewrite app_nth2 by (rewrite Hg; simpl; lia).
    rewrite Hg. replace (S i * m + j - m) with (i * m + j) by (simpl; lia).
    rewrite IH by lia. f_equal. f_equal. lia.
Qed.

Lemma nth_map_indices (s : Shape) (f : list nat -> F) (idx : list nat) :
  in_range s idx -> nth (offset s idx) (map f (indices s)) (of_Z 0) = f idx.
Proof.
  revert f idx; induction s as [|n s IH]; intros f [|i idx]; simpl; try tauto.
  intros [Hi H].
  rewrite concat_map, map_map.
  rewrite (nth_concat_blocks
             (fun k => map f (map (cons k) (indices s))) (numel s)).
  - simpl. rewrite map_map. apply (IH (fun x => f (i :: x))). exact H.
  - intros k. now rewrite !length_map, length_indices.
  - exact Hi.
  - now apply offset_lt.
Qed.

(** Reading a tabulated tensor inside its size gives the tabulated
    function. *)
Lemma at_tabulate (s : Shape) (f : list nat -> F) (idx : list nat) :
  in_range s idx -> at_ (tabulate s f) idx = f idx.
Proof. intros H. unfold at_, tabulate. simpl. now apply nth_map_indices. Qed.

Lemma size_tabulate (s : Shape) (f : list nat -> F) : size (tabulate s f) = s.
Proof. reflexivity. Qed.

Lemma size_tmap (f : F -> F) (t : Tensor F) : size (tmap f t) = size t.
Proof. reflexivity. Qed.

Lemma at_tmap (f : F -> F) (t : Tensor F) (idx : list nat) :
  in_range (size t) idx -> at_ (tmap f t) idx = f (at_ t idx).
Proof. intros H. unfold tmap. now rewrite at_tabulate. Qed.

(** *** Broadcasting against a size with some axes reduced to 1 *)

Lemma broadcast_rev_expands (a b : list nat) :
  Forall2 (fun n n' => n' = n \/ n' = 1) a b -> broadcast_rev a b = Some a.
Proof.
  induction 1 as [|x y a b Hxy _ IH]; simpl; [reflexivity|].
  rewrite IH. destruct Hxy as [-> | ->].
  - now rewrite Nat.eqb_refl.
  - destruct (x =? 1) eqn:E; [apply Nat.eqb_eq in E; now subst|].
    reflexivity.
Qed.

Lemma broadcast_shapes_expands (s s' : Shape) :
  expands s s' -> broadcast_shapes s s' = Some s.
Proof.
  intros H. unfold broadcast_shapes.
  rewrite broadcast_rev_expands.
  - simpl. now rewrite rev_involutive.
  - rewrite !rev_alt. exact (Forall2_reverse _ _ _ H).
Qed.

Lemma expands_refl (s : Shape) : expands s s.
Proof. induction s; constructor; auto. Qed.

Lemma expands_insert (s : Shape) (d : nat) : expands s (<[d:=1]> s).
Proof.
  revert d; induction s as [|n s IH]; intros [|d]; simpl.
  - constructor.
  - constructor.
  - constructor; [now right | apply expands_refl].
  - constructor; [now left | apply IH].
Qed.

Lemma expands_length (s s' : Shape) : expands s s' -> length s' = length s.
Proof. intros H. symmetry. exact (Forall2_length _ _ _ H). Qed.

Lemma bidx_clip (s : Shape) (idx : list nat) :
  length idx = length s -> bidx s idx = clip s idx.
Proof.
  intros H. unfold bidx, clip. rewrite H, Nat.sub_diag. reflexivity.
Qed.

Lemma clip_self (s : Shape) (idx : list nat) :
  in_range s idx -> clip s idx = idx.
Proof.
  revert idx; induction s as [|n s IH]; intros [|i idx]; simpl; try tauto.
  intros [Hi H]. unfold clip in *. simpl. rewrite IH by exact H.
  destruct (n =? 1) eqn:E; [|reflexivity].
  apply Nat.eqb_eq in E. f_equal. lia.
Qed.

Lemma in_range_clip (s s' : Shape) (idx : list nat) :
  expands s s' -> in_range s idx -> in_range s' (clip s' idx).
Proof.
  intros H. revert idx.
  induction H as [|n n' s s' Hn _ IH]; intros [|i idx]; simpl; try tauto.
  intros [Hi Hr]. split; [|now apply IH].
  destruct (n' =? 1) eqn:E.
  - apply Nat.eqb_eq in E. lia.
  - apply Nat.eqb_neq in E. lia.
Qed.

Lemma insert_clip_insert (s : Shape) (idx : list nat) (d k : nat) :
  in_range s idx -> <[d:=k]> (clip (<[d:=1]> s) idx) = <[d:=k]> idx.
Proof.
  revert idx d; induction s as [|n s IH]; intros [|i idx] d; simpl; try tauto.
  intros [Hi H]. destruct d as [|d]; simpl.
  - f_equal. now apply clip_self.
  - unfold clip in *. simpl. f_equal.
    + destruct (n =? 1) eqn:E; [|reflexivity].
      apply Nat.eqb_eq in E. lia.
    + now apply IH.
Qed.

Lemma in_range_insert (s : Shape) (idx : list nat) (d k : nat) :
  in_range (<[d:=1]> s) idx -> k < nth d s 0 -> in_range s (<[d:=k]> idx).
Proof.
  revert idx d; induction s as [|n s IH]; intros [|i idx] [|d]; simpl;
    try tauto; intros [Hi H] Hk.
  split; [exact Hi | now apply IH].
Qed.

(** *** What the operations of the binarizer return *)

Lemma binop_expands (f : F -> F -> F) (a b : Tensor F) :
  expands (size a) (size b) ->
  binop f a b =
    Ok (tabulate (size a) (fun idx =>
          f (at_ a (bidx (size a) idx)) (at_ b (bidx (size b) idx)))).
Proof. intros H. unfold binop. now rewrite broadcast_shapes_expands. Qed.

Lemma at_binop_expands (f : F -> F -> F) (a b r : Tensor F) (idx : list nat) :
  expands (size a) (size b) -> binop f a b = Ok r ->
  in_range (size a) idx ->
  at_ r idx = f (at_ a idx) (at_ b (clip (size b) idx)).
Proof.
  intros He Hr Hi. rewrite binop_expands in Hr by exact He.
  injection Hr as <-. rewrite at_tabulate by exact Hi.
  pose proof (in_range_length _ _ Hi) as Hl.
  rewrite !bidx_clip by (rewrite ?(expands_length _ _ He); exact Hl).
  now rewrite clip_self.
Qed.

Lemma reduce_ok (kernel : list F -> F) (d : nat) (t : Tensor F) :
  d < dim t ->
  reduce kernel d t =
    Ok (tabulate (<[d:=1]> (size t)) (fun idx => kernel (along d t idx))).
Proof.
  intros H. unfold reduce.
  destruct (d <? dim t) eqn:E; [reflexivity|].
  apply Nat.ltb_ge in E. lia.
Qed.

Lemma reduce_raises (kernel : list F -> F) (d : nat) (t : Tensor F) :
  dim t <= d -> reduce kernel d t = Raise IndexError.
Proof.
  intros H. unfold reduce.
  destruct (d <? dim t) eqn:E; [|reflexivity].
  apply Nat.ltb_lt in E. lia.
Qed.

(** *** Signs *)

Lemma sgn_cases (x : F) :
  (flt (of_Z 0) x = true /\ sgn x = of_Z 1) \/
  (flt (of_Z 0) x = false /\ flt x (of_Z 0) = true /\ sgn x = of_Z (-1)) \/
  (flt (of_Z 0) x = false /\ flt x (of_Z 0) = false /\ sgn x = of_Z 0).
Proof.
  unfold sgn. destruct (flt (of_Z 0) x); [now left|].
  destruct (flt x (of_Z 0)); [right; left | right; right]; auto.
Qed.

End WithArith.

(** *** Signs in the two arithmetics *)

Lemma Qltb_lt (x y : Q) : Qltb x y = true <-> (x < y)%Q.
Proof.
  unfold Qltb. rewrite Qlt_alt. destruct (x ?= y)%Q; split; congruence.
Qed.

Lemma Q_sgn_cases (x : Q) :
  ((0 < x)%Q /\ sgn x = 1%Q) \/
  ((x < 0)%Q /\ sgn x = (-1)%Q) \/
  ((x == 0)%Q /\ sgn x = 0%Q).
Proof.
  destruct (sgn_cases x) as [[H ->] | [(H1 & H2 & ->) | (H1 & H2 & ->)]].
  - left. split; [|reflexivity]. apply Qltb_lt. exact H.
  - right; left. split; [|reflexivity]. apply Qltb_lt. exact H2.
  - right; right. split; [|reflexivity].
    destruct (Q_dec 0 x) as [[H | H] | H].
    + apply Qltb_lt in H. change (Qltb 0 x = false) in H1. congruence.
    + apply Qltb_lt in H. change (Qltb x 0 = false) in H2. congruence.
    + symmetry. exact H.
Qed.

Lemma sgn_sgn (x : Q) : sgn (sgn x) = sgn x.
Proof.
  destruct (Q_sgn_cases x) as [[_ ->]|[[_ ->]|[_ ->]]]; reflexivity.
Qed.

Lemma b32_sgn_cases (x : spec_float) :
  sgn x = S754_finite false 8388608 (-23) \/
  sgn x = S754_finite true 8388608 (-23) \/
  sgn x = S754_zero false.
Proof.
  destruct (sgn_cases x) as [[_ ->] | [(_ & _ & ->) | (_ & _ & ->)]];
    [left | right; left | right; right]; reflexivity.
Qed.

Lemma b32_sgn_sgn (x : spec_float) : sgn (sgn x) = sgn x.
Proof.
  destruct (b32_sgn_cases x) as [-> | [-> | ->]]; reflexivity.
Qed.

End TorchFacts.
(** * Properties of the binarizer *)

Module BinarizerFacts.
Import Torch Binarizer BinarizerSpec TorchFacts.

Section WithArith.
Context {F : Type} {AF : Arith F}.

Lemma center_clamp_ok (d : Tensor F) :
  2 <= dim d ->
  exists v, center_clamp d = Ok v /\ size v = size d /\
    forall idx, in_range (size d) idx ->
      at_ v idx = center_clamp_spec d idx.
Proof.
  intros Hd. unfold center_clamp, mean.
  rewrite reduce_ok by lia. cbn [obind].
  set (mu := tabulate _ _).
  assert (He : expands (size d) (size (mul_scalar mu (of_Z (-1))))).
  { simpl. apply expands_insert. }
  unfold add. rewrite binop_expands by exact He. cbn [obind].
  eexists. split; [reflexivity|]. split; [reflexivity|].
  intros idx Hi. unfold clamp.
  rewrite at_tmap by exact Hi.
  rewrite at_tabulate by exact Hi.
  pose proof (in_range_length _ _ Hi) as Hl.
  rewrite (bidx_clip (size d)) by exact Hl.
  rewrite bidx_clip by (simpl; rewrite length_insert; exact Hl).
  rewrite clip_self by exact Hi.
  assert (Hc : in_range (<[1:=1]> (size d)) (clip (<[1:=1]> (size d)) idx)).
  { apply (in_range_clip (size d)); [apply expands_insert | exact Hi]. }
  unfold mul_scalar at 1. rewrite at_tmap by exact Hc.
  unfold mu. simpl size. rewrite at_tabulate by exact Hc.
  unfold center_clamp_spec, mean_spec, along.
  do 3 f_equal. f_equal. apply map_ext. intros k.
  now rewrite insert_clip_insert.
Qed.

Lemma scale_rank2 (d : Tensor F) (no ni n : nat) :
  size d = [no; ni] ->
  exists sc, scale d n = Ok (Some sc) /\ size sc = [no; 1] /\
    forall o, o < no ->
      at_ sc [o; 0] =
      fdiv (fnorm1 (map (fun k => at_ d [o; k]) (seq 0 ni))) (of_nat n).
Proof.
  intros Hs. unfold scale, norm1. rewrite Hs. simpl.
  rewrite reduce_ok by (unfold dim; rewrite Hs; simpl; lia).
  simpl. rewrite Hs. simpl.
  eexists. split; [reflexivity|]. split; [reflexivity|].
  intros o Ho. unfold div_scalar.
  rewrite at_tmap by (simpl; lia).
  rewrite at_tabulate by (simpl; lia).
  unfold along. rewrite Hs. reflexivity.
Qed.

Lemma indices_in_range (s : Shape) (idx : list nat) :
  In idx (indices s) -> in_range s idx.
Proof.
  revert idx. induction s as [|n s IH]; intros idx; simpl.
  - intros [<- | []]. exact I.
  - intros H. apply in_concat in H as (l & Hl & Hidx).
    apply in_map_iff in Hl as (i & <- & Hi).
    apply in_map_iff in Hidx as (idx' & <- & Hidx').
    apply in_seq in Hi. split; [lia | now apply IH].
Qed.

Lemma scale_rank4 (d : Tensor F) (no nc nh nw n : nat) :
  size d = [no; nc; nh; nw] ->
  exists sc, scale d n = Ok (Some sc) /\ size sc = [no; 1; 1; 1] /\
    forall o, o < no ->
      at_ sc [o; 0; 0; 0] =
      fdiv (fsum (map (fun ch =>
                    fnorm1 (map (fun x => at_ d (o :: ch ++ [x])) (seq 0 nw)))
                  (indices [nc; nh])))
           (of_nat n).
Proof.
  intros Hs. unfold scale, norm1. rewrite Hs. simpl.
  rewrite reduce_ok by (unfold dim; rewrite Hs; simpl; lia).
  rewrite Hs. cbn [obind]. unfold sum, dim. cbn [size tabulate].
  cbn [check_dims length insert list_insert Nat.ltb Nat.leb negb existsb
       Nat.eqb orb]. cbn [obind].
  eexists. split; [reflexivity|]. split; [reflexivity|].
  intros o Ho. unfold div_scalar.
  rewrite at_tmap by (simpl; lia).
  rewrite at_tabulate by (simpl; lia).
  f_equal. f_equal. unfold over. cbn [size map nth].
  apply map_ext_in. intros ch Hch.
  apply (indices_in_range [nc; nh]) in Hch.
  destruct ch as [|c [|h [|? ?]]]; simpl in Hch; try tauto.
  destruct Hch as (Hc & Hh & _).
  unfold set_axes. simpl.
  rewrite at_tabulate by (simpl; lia).
  unfold along. simpl. rewrite Hs. simpl. reflexivity.
Qed.

Lemma supported_cases (d : Tensor F) :
  supported d = true ->
  (exists no ni, size d = [no; ni] /\ no <> 0) \/
  (exists no nc nh nw, size d = [no; nc; nh; nw] /\ no <> 0).
Proof.
  unfold supported, dim. intros H.
  apply andb_true_iff in H as [Hr Hn].
  apply negb_true_iff, Nat.eqb_neq in Hn.
  apply orb_true_iff in Hr as [Hr | Hr]; apply Nat.eqb_eq in Hr.
  - left. destruct (size d) as [|no [|ni [|? ?]]]; try discriminate Hr.
    exists no, ni. split; [reflexivity | exact Hn].
  - right.
    destruct (size d) as [|no [|nc [|nh [|nw [|? ?]]]]]; try discriminate Hr.
    exists no, nc, nh, nw. split; [reflexivity | exact Hn].
Qed.

Lemma clip_head (n : nat) (s idx : list nat) (o : nat) :
  o < n -> clip (n :: s) (o :: idx) = o :: clip s idx.
Proof.
  intros H. unfold clip. simpl. destruct (n =? 1) eqn:E; [|reflexivity].
  apply Nat.eqb_eq in E. f_equal. lia.
Qed.

Lemma binarize_tensor_ok (d : Tensor F) :
  supported d = true ->
  exists v sc,
    scale d (numel (tl (size d))) = Ok (Some sc) /\
    binarize_tensor d = Ok v /\
    size v = size d /\
    (forall o, o < hd 0 (size d) ->
       at_ sc (scale_index (dim d) o) = scale_spec d o) /\
    (forall idx, in_range (size d) idx ->
       at_ v idx =
       fmul (sgn (at_ d idx)) (at_ sc (scale_index (dim d) (hd 0 idx)))).
Proof.
  intros H. unfold binarize_tensor, getitem0, nelement.
  destruct (supported_cases d H) as
    [(no & ni & Hs & Hn) | (no & nc & nh & nw & Hs & Hn)].
  - destruct (scale_rank2 d no ni (numel [ni]) Hs) as (sc & Hsc & Hsz & Hat).
    rewrite Hs. apply Nat.eqb_neq in Hn. rewrite Hn.
    cbn [tl obind size tabulate]. rewrite !Hsc. cbn [obind].
    assert (He : expands (size (sign d)) (size sc)).
    { rewrite Hsz. simpl. rewrite Hs. unfold expands.
      repeat (apply List.Forall2_cons; [auto|]). apply List.Forall2_nil. }
    unfold mul. rewrite (binop_expands _ _ _ He).
    eexists. exists sc. split; [reflexivity|]. split; [reflexivity|].
    split; [simpl; now rewrite Hs|]. split.
    + intros o Ho. unfold dim, scale_spec, scale_index. rewrite Hs.
      cbn [length Nat.sub repeat]. now rewrite (Hat o Ho).
    + intros idx Hi.
      erewrite at_binop_expands;
        [| exact He | apply binop_expands; exact He
         | simpl; rewrite Hs; exact Hi].
      unfold sign. rewrite at_tmap by (rewrite Hs; exact Hi).
      rewrite Hsz. unfold dim, scale_index. rewrite Hs.
      destruct idx as [|o [|i [|? ?]]]; simpl in Hi; try tauto.
      rewrite clip_head by tauto. reflexivity.
  - destruct (scale_rank4 d no nc nh nw (numel [nc; nh; nw]) Hs)
      as (sc & Hsc & Hsz & Hat).
    rewrite Hs. apply Nat.eqb_neq in Hn. rewrite Hn.
    cbn [tl obind size tabulate]. rewrite !Hsc. cbn [obind].
    assert (He : expands (size (sign d)) (size sc)).
    { rewrite Hsz. simpl. rewrite Hs. unfold expands.
      repeat (apply List.Forall2_cons; [auto|]). apply List.Forall2_nil. }
    unfold mul. rewrite (binop_expands _ _ _ He).
    eexists. exists sc. split; [reflexivity|]. split; [reflexivity|].
    split; [simpl; now rewrite Hs|]. split.
    + intros o Ho. unfold dim, scale_spec, scale_index. rewrite Hs.
      cbn [length Nat.sub repeat]. now rewrite (Hat o Ho).
    + intros idx Hi.
      erewrite at_binop_expands;
        [| exact He | apply binop_expands; exact He
         | simpl; rewrite Hs; exact Hi].
      unfold sign. rewrite at_tmap by (rewrite Hs; exact Hi).
      rewrite Hsz. unfold dim, scale_index. rewrite Hs.
      destruct idx as [|o [|c [|h [|x [|? ?]]]]]; simpl in Hi; try tauto.
      rewrite clip_head by tauto. reflexivity.
Qed.

(** ** The loops *)

Lemma center_and_clamp_unfold (st : State F) :
  center_and_clamp st = for_each (target_modules (self st)) center_body st.
Proof. reflexivity. Qed.

Lemma center_body_updates : updates center_body center_clamp.
Proof.
  intros m st. unfold center_clamp, center_body, bind, get_data, lift, set_data.
  simpl. destruct (mean 1 (data st m)) as [mu|e]; simpl; [|reflexivity].
  destruct (add _ _) as [r|e]; simpl; [|reflexivity].
  eexists. split; [reflexivity|]. split; [reflexivity|].
  intros p. simpl. destruct (decide (p = m)); [|reflexivity].
  destruct (decide (m = m)); [reflexivity | congruence].
Qed.

Lemma for_each_updates (body : ParamId -> M F unit)
      (g : Tensor F -> outcome (Tensor F)) (l : list ParamId) :
  updates body g ->
  forall st, NoDup l ->
  (forall m, In m l -> exists v, g (data st m) = Ok v) ->
  exists st', for_each l body st = (st', Ok tt) /\ self st' = self st /\
    (forall m, In m l -> g (data st m) = Ok (data st' m)) /\
    (forall p, ~ In p l -> data st' p = data st p).
Proof.
  intros Hb. induction l as [|m l IH]; intros st Hnd Hok.
  - exists st. simpl. unfold ret. repeat split; tauto.
  - apply NoDup_cons in Hnd as [Hm Hnd].
    destruct (Hok m (or_introl eq_refl)) as [v Hv].
    pose proof (Hb m st) as Hbm. rewrite Hv in Hbm.
    destruct Hbm as (st1 & Hrun & Hself & Hdata).
    destruct (IH st1 Hnd) as (st' & Hrun' & Hself' & Hin & Hout).
    { intros m' Hm'. rewrite Hdata.
      destruct (decide (m' = m)) as [->|]; [|apply Hok; now right].
      exfalso. apply Hm. now apply list_elem_of_In. }
    exists st'. simpl. unfold bind. rewrite Hrun. split; [exact Hrun'|].
    split; [congruence|]. split.
    + intros m' [<- | Hm'].
      * rewrite Hout, Hdata.
        -- destruct (decide (m = m)); [exact Hv | congruence].
        -- intros Hc. apply Hm. now apply list_elem_of_In.
      * rewrite <- (Hin m' Hm'). rewrite Hdata.
        destruct (decide (m' = m)) as [->|]; [|reflexivity].
        exfalso. apply Hm. now apply list_elem_of_In.
    + intros p Hp. rewrite Hout by (intros Hc; apply Hp; now right).
      rewrite Hdata. destruct (decide (p = m)) as [->|]; [|reflexivity].
      exfalso. apply Hp. now left.
Qed.

Lemma _binarize_weights_unfold (st : State F) :
  _binarize_weights st =
  match for_with (target_modules (self st)) binarize_body None st with
  | (st', Ok _) => (st', Ok tt)
  | (st', Raise e) => (st', Raise e)
  end.
Proof. reflexivity. Qed.

Lemma binarize_body_ok (mean : option (Tensor F)) (m : ParamId) (st : State F)
      (v : Tensor F) :
  binarize_tensor (data st m) = Ok v ->
  exists st' mean',
    binarize_body mean m st = (st', Ok mean') /\ self st' = self st /\
    forall p, data st' p = if decide (p = m) then v else data st p.
Proof.
  unfold binarize_tensor, binarize_body, bind, get_data, lift, set_data, ret.
  simpl. destruct (getitem0 (data st m)) as [d0|e]; simpl; [|discriminate].
  destruct (scale _ _) as [[sc|]|e]; simpl; try discriminate.
  intros H. rewrite H. simpl. eexists. eexists.
  split; [reflexivity|]. split; reflexivity.
Qed.

Lemma scale_unsupported (d : Tensor F) (n : nat) :
  dim d <> 2 -> dim d <> 4 -> scale d n = Ok None.
Proof.
  intros H2 H4. unfold scale. fold (dim d).
  apply Nat.eqb_neq in H2, H4. now rewrite H2, H4.
Qed.

Lemma binarize_body_unsupported (m : ParamId) (st : State F) :
  dim (data st m) <> 2 -> dim (data st m) <> 4 ->
  exists e, binarize_body None m st = (st, Raise e) /\
            (e = IndexError \/ e = UnboundLocalError).
Proof.
  intros H2 H4.
  unfold binarize_body, bind, get_data, lift, raise. simpl.
  destruct (getitem0 (data st m)) as [d0|e] eqn:E; simpl.
  - rewrite scale_unsupported by assumption. simpl.
    exists UnboundLocalError. split; [reflexivity | now right].
  - exists e. split; [reflexivity|]. left.
    unfold getitem0 in E. destruct (size (data st m)) as [|n s].
    + congruence.
    + destruct (n =? 0); congruence.
Qed.

Lemma binarize_loop (l : list ParamId) :
  forall st mean, NoDup l ->
  (forall m, In m l -> exists v, binarize_tensor (data st m) = Ok v) ->
  exists st' mean',
    for_with l binarize_body mean st = (st', Ok mean') /\
    self st' = self st /\
    (forall m, In m l -> binarize_tensor (data st m) = Ok (data st' m)) /\
    (forall p, ~ In p l -> data st' p = data st p).
Proof.
  induction l as [|m l IH]; intros st mean Hnd Hok.
  - exists st, mean. simpl. unfold ret. repeat split; tauto.
  - apply NoDup_cons in Hnd as [Hm Hnd].
    destruct (Hok m (or_introl eq_refl)) as [v Hv].
    destruct (binarize_body_ok mean m st v Hv)
      as (st1 & mean1 & Hrun & Hself & Hdata).
    destruct (IH st1 mean1 Hnd) as (st' & mean' & Hrun' & Hself' & Hin & Hout).
    { intros m' Hm'. rewrite Hdata.
      destruct (decide (m' = m)) as [->|]; [|apply Hok; now right].
      exfalso. apply Hm. now apply list_elem_of_In. }
    exists st', mean'. simpl. unfold bind. rewrite Hrun. split; [exact Hrun'|].
    split; [congruence|]. split.
    + intros m' [<- | Hm'].
      * rewrite Hout, Hdata.
        -- destruct (decide (m = m)); [exact Hv | congruence].
        -- intros Hc. apply Hm. now apply list_elem_of_In.
      * rewrite <- (Hin m' Hm'). rewrite Hdata.
        destruct (decide (m' = m)) as [->|]; [|reflexivity].
        exfalso. apply Hm. now apply list_elem_of_In.
    + intros p Hp. rewrite Hout by (intros Hc; apply Hp; now right).
      rewrite Hdata. destruct (decide (p = m)) as [->|]; [|reflexivity].
      exfalso. apply Hp. now left.
Qed.

Lemma _save_params_unfold (st : State F) :
  _save_params st =
  for_each (seq 0 (length (saved_params (self st)))) save_body st.
Proof. reflexivity. Qed.

Lemma restore_weights_unfold (st : State F) :
  restore_weights st = for_each (seq 0 (num_of_params (self st))) restore_body st.
Proof. reflexivity. Qed.

Lemma copy__same_size (dst src : Tensor F) :
  size dst = size src -> copy_ dst src = Ok src.
Proof.
  intros H. unfold copy_. destruct (decide _) as [_|n]; [|contradiction].
  rewrite H. now destruct src.
Qed.

Lemma save_body_ok (i : nat) (st : State F) (m : ParamId) (b : Tensor F) :
  target_modules (self st) !! i = Some m ->
  saved_params (self st) !! i = Some b ->
  size b = size (data st m) ->
  save_body i st =
  (mkState (data st)
     (mkSelf (<[i:=data st m]> (saved_params (self st)))
             (target_modules (self st)) (num_of_params (self st))),
   Ok tt).
Proof.
  intros Hm Hb Hs.
  unfold save_body, bind, get_saved_params, get_target_modules, getitem,
    get_data, lift, set_saved_params, ret. simpl.
  rewrite Hb. simpl. rewrite Hm. simpl.
  rewrite (copy__same_size _ _ Hs). reflexivity.
Qed.

Lemma save_loop (n : nat) :
  forall a st,
  (forall i, a <= i < a + n ->
     exists m b, target_modules (self st) !! i = Some m /\
                 saved_params (self st) !! i = Some b /\
                 size b = size (data st m)) ->
  exists st',
    for_each (seq a n) save_body st = (st', Ok tt) /\
    data st' = data st /\
    target_modules (self st') = target_modules (self st) /\
    num_of_params (self st') = num_of_params (self st) /\
    length (saved_params (self st')) = length (saved_params (self st)) /\
    (forall i m, a <= i < a + n -> target_modules (self st) !! i = Some m ->
       saved_params (self st') !! i = Some (data st m)) /\
    (forall i, ~ a <= i < a + n ->
       saved_params (self st') !! i = saved_params (self st) !! i).
Proof.
  induction n as [|n IH]; intros a st H.
  - exists st. simpl. unfold ret. repeat split; auto. intros i m Hi. lia.
  - destruct (H a) as (m & b & Hm & Hb & Hs); [lia|].
    simpl. unfold bind. rewrite (save_body_ok a st m b Hm Hb Hs).
    set (st1 := mkState _ _).
    destruct (IH (S a) st1) as (st' & Hrun & Hd & Ht & Hn & Hl & Hin & Hout).
    { intros i Hi. destruct (H i) as (m' & b' & Hm' & Hb' & Hs'); [lia|].
      exists m', b'. simpl. split; [exact Hm'|]. split; [|exact Hs'].
      rewrite list_lookup_insert_ne by lia. exact Hb'. }
    exists st'. split; [exact Hrun|]. simpl in *.
    split; [exact Hd|]. split; [exact Ht|]. split; [exact Hn|].
    split; [now rewrite Hl, length_insert|]. split.
    + intros i m' Hi Hm'. destruct (decide (i = a)) as [->|Hne].
      * rewrite Hout by lia. rewrite Hm in Hm'. injection Hm' as <-.
        apply list_lookup_insert_eq. apply lookup_lt_Some in Hb. exact Hb.
      * apply Hin; [lia | exact Hm'].
    + intros i Hi. rewrite Hout by lia.
      apply list_lookup_insert_ne. lia.
Qed.

Lemma restore_body_ok (i : nat) (st : State F) (m : ParamId) (b : Tensor F) :
  target_modules (self st) !! i = Some m ->
  saved_params (self st) !! i = Some b ->
  size (data st m) = size b ->
  restore_body i st =
  (mkState (fun p => if decide (p = m) then b else data st p) (self st), Ok tt).
Proof.
  intros Hm Hb Hs.
  unfold restore_body, bind, get_saved_params, get_target_modules, getitem,
    get_data, lift, set_data, ret. simpl.
  rewrite Hm. simpl. rewrite Hb. simpl.
  rewrite (copy__same_size _ _ Hs). reflexivity.
Qed.

(** ** Frames *)

Section Respects.
Variable R : State F -> State F -> Prop.
Hypothesis R_refl : forall st, R st st.
Hypothesis R_trans : forall a b c, R a b -> R b c -> R a c.

Lemma respects_ret {A} (a : A) : respects R (ret a).
Proof. intros st. split; [apply R_refl | discriminate]. Qed.

Lemma respects_bind {A B} (c : M F A) (k : A -> M F B) :
  respects R c -> (forall a, respects R (k a)) -> respects R (bind c k).
Proof.
  intros Hc Hk st. unfold bind. specialize (Hc st).
  destruct (c st) as [st1 [a|e]]; simpl in *.
  - destruct (Hk a st1) as [H1 H2]. split; [|exact H2].
    eapply R_trans; [apply Hc | exact H1].
  - split; [tauto|]. intros H. apply (proj2 Hc). congruence.
Qed.

Lemma respects_for_each {X} (l : list X) (body : X -> M F unit) :
  (forall x, In x l -> respects R (body x)) -> respects R (for_each l body).
Proof.
  induction l as [|x l IH]; intros H; simpl.
  - apply respects_ret.
  - apply respects_bind; [apply H; now left|].
    intros _. apply IH. intros y Hy. apply H. now right.
Qed.

Lemma respects_for_with {X V} (l : list X) (body : V -> X -> M F V) (v : V) :
  (forall v x, In x l -> respects R (body v x)) ->
  respects R (for_with l body v).
Proof.
  revert v. induction l as [|x l IH]; intros v H; simpl.
  - apply respects_ret.
  - apply respects_bind; [apply H; now left|].
    intros v'. apply IH. intros w y Hy. apply H. now right.
Qed.

End Respects.

Lemma frame_refl T (st : State F) : frame T st st.
Proof. intros H. split; auto. Qed.

Lemma frame_trans T (a b c : State F) : frame T a b -> frame T b c -> frame T a c.
Proof.
  intros Hab Hbc HT. destruct (Hab HT) as [HT1 H1].
  destruct (Hbc HT1) as [HT2 H2]. split; [exact HT2|].
  intros p Hp. now rewrite H2, H1.
Qed.

Lemma calm_refl T (st : State F) : calm T st st.
Proof. intros H. repeat split; auto. Qed.

Lemma calm_trans T (a b c : State F) : calm T a b -> calm T b c -> calm T a c.
Proof.
  intros Hab Hbc HT. destruct (Hab HT) as (HT1 & H1 & S1).
  destruct (Hbc HT1) as (HT2 & H2 & S2). split; [exact HT2|]. split.
  - intros p Hp. now rewrite H2, H1.
  - intros p. now rewrite S2, S1.
Qed.

Lemma calm_frame T {A} (c : M F A) : respects (calm T) c -> respects (frame T) c.
Proof.
  intros H st. destruct (H st) as [H1 H2]. split; [|exact H2].
  intros HT. destruct (H1 HT) as (Ha & Hb & _). now split.
Qed.

(** The exceptions of the tensor operations. *)
Lemma reduce_exn f d (t : Tensor F) e : reduce f d t = Raise e -> e = IndexError.
Proof. unfold reduce. destruct (d <? dim t); congruence. Qed.

Lemma mean_exn d (t : Tensor F) e : mean d t = Raise e -> e = IndexError.
Proof.
  unfold mean. destruct (reduce _ d t) eqn:E; simpl; [discriminate|].
  intros H. injection H as <-. eapply reduce_exn; exact E.
Qed.

Lemma binop_exn f (a b : Tensor F) e : binop f a b = Raise e -> e = RuntimeError.
Proof. unfold binop. destruct (broadcast_shapes _ _); congruence. Qed.

Lemma copy__exn (a b : Tensor F) e : copy_ a b = Raise e -> e = RuntimeError.
Proof.
  unfold copy_. destruct (decide _); [discriminate|].
  destruct (broadcast_shapes _ _); [|congruence].
  destruct (decide _); congruence.
Qed.

Lemma copy__size (a b v : Tensor F) : copy_ a b = Ok v -> size v = size a.
Proof.
  unfold copy_. destruct (decide _); [intros H; now injection H as <-|].
  destruct (broadcast_shapes _ _); [|discriminate].
  destruct (decide _); [|discriminate]. intros H. now injection H as <-.
Qed.

Lemma getitem0_exn (t : Tensor F) e : getitem0 t = Raise e -> e = IndexError.
Proof.
  unfold getitem0. destruct (size t) as [|n s]; [congruence|].
  destruct (n =? 0); congruence.
Qed.

Lemma scale_exn (d : Tensor F) n e : scale d n = Raise e -> e = IndexError.
Proof.
  unfold scale, norm1. destruct (length (size d) =? 4) eqn:E4.
  - apply Nat.eqb_eq in E4. rewrite reduce_ok by (unfold dim; lia).
    cbn [obind]. unfold sum, dim. cbn [size tabulate].
    rewrite length_insert, E4. simpl. discriminate.
  - destruct (length (size d) =? 2) eqn:E2; [|discriminate].
    apply Nat.eqb_eq in E2. rewrite reduce_ok by (unfold dim; lia).
    simpl. discriminate.
Qed.

Lemma center_clamp_size (d v : Tensor F) : center_clamp d = Ok v -> size v = size d.
Proof.
  intros H. destruct (le_lt_dec 2 (dim d)) as [Hd|Hd].
  - destruct (center_clamp_ok d Hd) as (v' & Hv' & Hs & _). congruence.
  - unfold center_clamp, mean in H. rewrite reduce_raises in H by lia.
    discriminate H.
Qed.

Lemma center_clamp_exn (d : Tensor F) e : center_clamp d = Raise e -> e <> ConfigurationError.
Proof.
  unfold center_clamp. destruct (mean 1 d) eqn:E; simpl.
  - destruct (add _ _) eqn:E2; simpl; [discriminate|].
    intros H. injection H as <-. apply binop_exn in E2. congruence.
  - intros H. injection H as <-. apply mean_exn in E. congruence.
Qed.

Lemma center_body_calm T m : In m T -> respects (calm T) (center_body m).
Proof.
  intros Hm st. pose proof (center_body_updates m st) as H.
  destruct (center_clamp (data st m)) as [v|e] eqn:E.
  - destruct H as (st' & Hrun & Hself & Hdata). rewrite Hrun. simpl.
    split; [|discriminate]. intros HT. rewrite Hself. split; [exact HT|]. split.
    + intros p Hp. rewrite Hdata. destruct (decide (p = m)) as [->|]; tauto.
    + intros p. rewrite Hdata. destruct (decide (p = m)) as [->|]; [|reflexivity].
      now apply center_clamp_size.
  - rewrite H. simpl. split; [apply calm_refl|].
    intros Hc. injection Hc as ->. now apply center_clamp_exn in E.
Qed.

Lemma center_and_clamp_calm T : respects (calm T) center_and_clamp.
Proof.
  intros st. rewrite center_and_clamp_unfold.
  destruct (decide (target_modules (self st) = T)) as [HT|HT].
  - apply (respects_for_each (calm T) (calm_refl T) (calm_trans T)).
    intros m Hm. apply center_body_calm. now rewrite <- HT.
  - pose proof (respects_for_each (calm (target_modules (self st)))
                  (calm_refl _) (calm_trans _)
                  (target_modules (self st)) center_body
                  (fun m Hm => center_body_calm _ m Hm) st) as [H1 H2].
    split; [|exact H2]. intros HT'. contradiction.
Qed.

Lemma save_body_calm T i : respects (calm T) (save_body i).
Proof.
  intros st.
  unfold save_body, bind, get_saved_params, get_target_modules, getitem,
    get_data, lift, set_saved_params, ret, raise. simpl.
  destruct (saved_params (self st) !! i) as [b|]; simpl;
    [|split; [apply calm_refl | discriminate]].
  destruct (target_modules (self st) !! i) as [m|]; simpl;
    [|split; [apply calm_refl | discriminate]].
  destruct (copy_ b (data st m)) as [v|e] eqn:E; simpl.
  - split; [|discriminate]. intros HT. simpl. repeat split; auto.
  - split; [apply calm_refl|]. apply copy__exn in E. congruence.
Qed.

Lemma _save_params_calm T : respects (calm T) _save_params.
Proof.
  intros st. rewrite _save_params_unfold.
  apply (respects_for_each (calm T) (calm_refl T) (calm_trans T)).
  intros i _. apply save_body_calm.
Qed.

Lemma binarize_body_frame T (mean : option (Tensor F)) m :
  In m T -> respects (frame T) (binarize_body mean m).
Proof.
  intros Hm st.
  unfold binarize_body, bind, get_data, lift, set_data, ret, raise. simpl.
  destruct (getitem0 (data st m)) as [d0|e] eqn:E0; simpl.
  2:{ split; [apply frame_refl|]. apply getitem0_exn in E0. congruence. }
  destruct (scale (data st m) (nelement d0)) as [a|e] eqn:E1; simpl.
  2:{ split; [apply frame_refl|]. apply scale_exn in E1. congruence. }
  destruct (match a with Some v => Some v | None => mean end) as [mv|]; simpl.
  2:{ split; [apply frame_refl | discriminate]. }
  destruct (mul (sign (data st m)) mv) as [r|e] eqn:E2; simpl.
  2:{ split; [apply frame_refl|]. apply binop_exn in E2. congruence. }
  split; [|discriminate]. intros HT. simpl. split; [exact HT|].
  intros p Hp. destruct (decide (p = m)) as [->|]; tauto.
Qed.

Lemma _binarize_weights_frame T : respects (frame T) _binarize_weights.
Proof.
  intros st. rewrite _binarize_weights_unfold.
  assert (H : frame T st
                (fst (for_with (target_modules (self st)) binarize_body None st))
              /\ snd (for_with (target_modules (self st)) binarize_body None st)
                 <> Raise ConfigurationError).
  { destruct (decide (target_modules (self st) = T)) as [HT|HT].
    - apply (respects_for_with (frame T) (frame_refl T) (frame_trans T)).
      intros v m Hm. apply binarize_body_frame. now rewrite <- HT.
    - pose proof (respects_for_with (frame (target_modules (self st)))
                    (frame_refl _) (frame_trans _)
                    (target_modules (self st)) binarize_body None
                    (fun v m Hm => binarize_body_frame _ v m Hm) st) as [H1 H2].
      split; [|exact H2]. intros HT'. contradiction. }
  destruct (for_with _ _ _ _) as [st' [v|e]]; simpl in *.
  - split; [tauto | discriminate].
  - split; [tauto|]. intros Hc. apply (proj2 H). congruence.
Qed.

Lemma restore_body_frame T i : respects (frame T) (restore_body i).
Proof.
  intros st.
  unfold restore_body, bind, get_saved_params, get_target_modules, getitem,
    get_data, lift, set_data, ret, raise. simpl.
  destruct (target_modules (self st) !! i) as [m|] eqn:Em; simpl;
    [|split; [apply frame_refl | discriminate]].
  destruct (saved_params (self st) !! i) as [b|]; simpl;
    [|split; [apply frame_refl | discriminate]].
  destruct (copy_ (data st m) b) as [v|e] eqn:E; simpl.
  - split; [|discriminate]. intros HT. simpl. split; [exact HT|].
    intros p Hp. destruct (decide (p = m)) as [->|]; [|reflexivity].
    exfalso. apply Hp. rewrite <- HT. apply list_elem_of_In.
    eapply list_elem_of_lookup_2. exact Em.
  - split; [apply frame_refl|]. apply copy__exn in E. congruence.
Qed.

Lemma restore_weights_frame T : respects (frame T) restore_weights.
Proof.
  intros st. rewrite restore_weights_unfold.
  apply (respects_for_each (frame T) (frame_refl T) (frame_trans T)).
  intros i _. apply restore_body_frame.
Qed.

Lemma binarize_weights_frame T : respects (frame T) binarize_weights.
Proof.
  unfold binarize_weights.
  apply (respects_bind (frame T) (frame_trans T)).
  { apply calm_frame, center_and_clamp_calm. }
  intros _. apply (respects_bind (frame T) (frame_trans T)).
  { apply calm_frame, _save_params_calm. }
  intros _. apply _binarize_weights_frame.
Qed.

(** [C8] A parameter that is not in the tracked list holds the same
    value after [binarize_weights()] and after [restore_weights()] as
    before, whether the call returns or raises. *)
Theorem untracked_untouched (st : State F) (p : ParamId) :
  ~ In p (target_modules (self st)) ->
  data (fst (binarize_weights st)) p = data st p /\
  data (fst (restore_weights st)) p = data st p.
Proof.
  intros Hp. split.
  - destruct (binarize_weights_frame (target_modules (self st)) st) as [H _].
    destruct (H eq_refl) as [_ Hd]. now apply Hd.
  - destruct (restore_weights_frame (target_modules (self st)) st) as [H _].
    destruct (H eq_refl) as [_ Hd]. now apply Hd.
Qed.

(** ** States of a constructed binarizer *)

Lemma aligned_Aligned (st : State F) : aligned st = true <-> Aligned st.
Proof.
  unfold aligned. rewrite !andb_true_iff.
  rewrite !Nat.eqb_eq, forallb_forall. split.
  - intros [[Hl Hn] Hf]. split; auto.
    intros i m b Hm Hb.
    specialize (Hf (m, b)). simpl in Hf.
    rewrite andb_true_iff, bool_decide_eq_true in Hf. apply Hf.
    apply list_elem_of_In. apply (list_elem_of_lookup_2 _ i).
    apply lookup_zip_with_Some. now exists m, b.
  - intros [Hl Hn Ha]. repeat split; auto.
    intros [m b] Hin. simpl.
    apply list_elem_of_In, list_elem_of_lookup in Hin as [i Hi].
    apply lookup_zip_with_Some in Hi as (m' & b' & Heq & Em & Eb).
    injection Heq as -> ->.
    rewrite andb_true_iff, bool_decide_eq_true. now apply (Ha i).
Qed.

Lemma well_formed_Inv (st : State F) : well_formed st = true <-> Inv st.
Proof.
  unfold well_formed. rewrite andb_true_iff, bool_decide_eq_true.
  rewrite aligned_Aligned. split.
  - intros [H1 H2]. now split.
  - intros [H1 H2]. now split.
Qed.

Lemma well_formed_aligned (st : State F) :
  well_formed st = true -> aligned st = true.
Proof. unfold well_formed. rewrite andb_true_iff. tauto. Qed.

Lemma supported_size (a b : Tensor F) :
  size a = size b -> supported a = supported b.
Proof. intros H. unfold supported, dim. now rewrite H. Qed.

Lemma supported_dim (d : Tensor F) : supported d = true -> 2 <= dim d.
Proof.
  unfold supported. intros H. apply andb_true_iff in H as [H _].
  apply orb_true_iff in H as [H|H]; apply Nat.eqb_eq in H; lia.
Qed.

Lemma lookup_In {X} (l : list X) (i : nat) (x : X) :
  l !! i = Some x -> In x l.
Proof. intros H. apply list_elem_of_In. eapply list_elem_of_lookup_2, H. Qed.

Lemma Aligned_target (st : State F) (m : ParamId) :
  Aligned st -> In m (target_modules (self st)) -> supported (data st m) = true.
Proof.
  intros [Hl Hn Ha] Hm.
  apply list_elem_of_In, list_elem_of_lookup in Hm as [i Hi].
  destruct (lookup_lt_is_Some_2 (saved_params (self st)) i) as [b Hb].
  { rewrite Hl. eapply lookup_lt_Some. exact Hi. }
  now destruct (Ha i m b Hi Hb).
Qed.

(** Transport of the invariants to a state with the same attributes and
    sizes. *)
Lemma Aligned_sizes (st st' : State F) :
  Aligned st -> self st' = self st ->
  (forall m, In m (target_modules (self st)) ->
             size (data st' m) = size (data st m)) ->
  Aligned st'.
Proof.
  intros [Hl Hn Ha] Hs Hsz. split; rewrite Hs; auto.
  intros i m b Hm Hb. destruct (Ha i m b Hm Hb) as [H1 H2].
  assert (Hin : In m (target_modules (self st))) by (eapply lookup_In, Hm).
  rewrite (supported_size _ _ (Hsz m Hin)), (Hsz m Hin). now split.
Qed.

Lemma Inv_target (st : State F) (m : ParamId) :
  Inv st -> In m (target_modules (self st)) -> supported (data st m) = true.
Proof. intros [_ Ha]. now apply Aligned_target. Qed.

Lemma Inv_sizes (st st' : State F) :
  Inv st -> self st' = self st ->
  (forall m, In m (target_modules (self st)) ->
             size (data st' m) = size (data st m)) ->
  Inv st'.
Proof.
  intros [Hnd Ha] Hs Hsz. split; [now rewrite Hs|].
  now apply (Aligned_sizes st).
Qed.

(** A loop of updates that keep sizes runs through on supported
    parameters, whether or not one of them comes twice. *)
Lemma for_each_updates_sizes (body : ParamId -> M F unit)
      (g : Tensor F -> outcome (Tensor F)) (l : list ParamId) :
  updates body g ->
  (forall d v, g d = Ok v -> size v = size d) ->
  (forall d, supported d = true -> exists v, g d = Ok v) ->
  forall st,
  (forall m, In m l -> supported (data st m) = true) ->
  exists st', for_each l body st = (st', Ok tt) /\ self st' = self st /\
    forall p, size (data st' p) = size (data st p).
Proof.
  intros Hb Hsz Hok. induction l as [|m l IH]; intros st Hsup.
  - exists st. simpl. unfold ret. repeat split; tauto.
  - destruct (Hok _ (Hsup m (or_introl eq_refl))) as [v Hv].
    pose proof (Hb m st) as Hbm. rewrite Hv in Hbm.
    destruct Hbm as (st1 & Hrun & Hself & Hdata).
    assert (Hs1 : forall p, size (data st1 p) = size (data st p)).
    { intros p. rewrite Hdata. destruct (decide (p = m)) as [->|]; auto. }
    destruct (IH st1) as (st' & Hrun' & Hself' & Hs').
    { intros m' Hm'. rewrite (supported_size _ _ (Hs1 m')).
      apply Hsup. now right. }
    exists st'. simpl. unfold bind. rewrite Hrun. split; [exact Hrun'|].
    split; [congruence|]. intros p. now rewrite Hs', Hs1.
Qed.

Lemma binarize_loop_sizes (l : list ParamId) :
  forall st mean,
  (forall m, In m l -> supported (data st m) = true) ->
  exists st' mean',
    for_with l binarize_body mean st = (st', Ok mean') /\
    self st' = self st /\
    forall p, size (data st' p) = size (data st p).
Proof.
  induction l as [|m l IH]; intros st mean Hsup.
  - exists st, mean. simpl. unfold ret. repeat split; tauto.
  - destruct (binarize_tensor_ok _ (Hsup m (or_introl eq_refl)))
      as (v & sc & _ & Hv & Hsz & _).
    destruct (binarize_body_ok mean m st v Hv)
      as (st1 & mean1 & Hrun & Hself & Hdata).
    assert (Hs1 : forall p, size (data st1 p) = size (data st p)).
    { intros p. rewrite Hdata. destruct (decide (p = m)) as [->|]; auto. }
    destruct (IH st1 mean1) as (st' & mean' & Hrun' & Hself' & Hs').
    { intros m' Hm'. rewrite (supported_size _ _ (Hs1 m')).
      apply Hsup. now right. }
    exists st', mean'. simpl. unfold bind. rewrite Hrun. split; [exact Hrun'|].
    split; [congruence|]. intros p. now rewrite Hs', Hs1.
Qed.

Lemma lookup_range_dec (l : list ParamId) (a n : nat) (m : ParamId) :
  (exists j, a <= j < a + n /\ l !! j = Some m) \/
  ~ (exists j, a <= j < a + n /\ l !! j = Some m).
Proof.
  destruct (decide (m ∈ take n (drop a l))) as [Hin | Hno].
  - left. apply elem_of_take in Hin as (i & Hi & Hlt).
    rewrite lookup_drop in Hi. exists (a + i). split; [lia | exact Hi].
  - right. intros (j & Hj & Hm). apply Hno. apply elem_of_take.
    exists (j - a). rewrite lookup_drop.
    replace (a + (j - a)) with j by lia. split; [exact Hm | lia].
Qed.

(** Restoring when two tracked entries may name one parameter: its
    shadow buffers then hold one value. *)
Lemma restore_loop_shared (n : nat) :
  forall a st,
  (forall i, a <= i < a + n ->
     exists m b, target_modules (self st) !! i = Some m /\
                 saved_params (self st) !! i = Some b /\
                 size (data st m) = size b) ->
  (forall i j m, target_modules (self st) !! i = Some m ->
                 target_modules (self st) !! j = Some m ->
                 saved_params (self st) !! i = saved_params (self st) !! j) ->
  exists st',
    for_each (seq a n) restore_body st = (st', Ok tt) /\
    self st' = self st /\
    (forall i m b, a <= i < a + n ->
       target_modules (self st) !! i = Some m ->
       saved_params (self st) !! i = Some b -> data st' m = b) /\
    (forall p, (forall i, a <= i < a + n ->
                  target_modules (self st) !! i <> Some p) ->
       data st' p = data st p).
Proof.
  induction n as [|n IH]; intros a st H Hsame.
  - exists st. simpl. unfold ret. repeat split; auto. intros i m b Hi. lia.
  - destruct (H a) as (m & b & Hm & Hb & Hs); [lia|].
    simpl. unfold bind. rewrite (restore_body_ok a st m b Hm Hb Hs).
    set (st1 := mkState _ _).
    destruct (IH (S a) st1) as (st' & Hrun & Hself & Hin & Hout).
    { intros i Hi. destruct (H i) as (m' & b' & Hm' & Hb' & Hs'); [lia|].
      exists m', b'. simpl. split; [exact Hm'|]. split; [exact Hb'|].
      destruct (decide (m' = m)) as [->|_]; [|exact Hs'].
      pose proof (Hsame a i m Hm Hm') as E. rewrite Hb, Hb' in E.
      now injection E as ->. }
    { exact Hsame. }
    exists st'. split; [exact Hrun|]. simpl in *. split; [exact Hself|]. split.
    + intros i m' b' Hi Hm' Hb'. destruct (decide (i = a)) as [->|Hne].
      * rewrite Hm in Hm'. injection Hm' as <-.
        rewrite Hb in Hb'. injection Hb' as <-.
        destruct (lookup_range_dec (target_modules (self st)) (S a) n m)
          as [(j & Hj & Hmj) | Hno].
        -- pose proof (Hsame a j m Hm Hmj) as E. rewrite Hb in E.
           symmetry in E. exact (Hin j m b Hj Hmj E).
        -- rewrite Hout.
           ++ destruct (decide (m = m)); [reflexivity | congruence].
           ++ intros j Hj Hc. apply Hno. now exists j.
      * apply (Hin i); [lia | exact Hm' | exact Hb'].
    + intros p Hp. rewrite Hout by (intros i Hi; apply Hp; lia).
      destruct (decide (p = m)) as [->|]; [|reflexivity].
      exfalso. apply (Hp a); [lia | exact Hm].
Qed.

(** *** The four steps, when a weight may be shared *)

Lemma center_and_clamp_runs (st : State F) :
  Aligned st ->
  exists st1,
    center_and_clamp st = (st1, Ok tt) /\ self st1 = self st /\
    (forall p, size (data st1 p) = size (data st p)) /\
    Aligned st1.
Proof.
  intros HA. rewrite center_and_clamp_unfold.
  destruct (for_each_updates_sizes center_body center_clamp
              (target_modules (self st)) center_body_updates
              center_clamp_size) with (st := st)
    as (st1 & Hrun & Hself & Hsz).
  { intros d Hd. destruct (center_clamp_ok d (supported_dim d Hd))
      as (v & Hv & _). now exists v. }
  { intros m Hm. now apply Aligned_target. }
  exists st1. split; [exact Hrun|]. split; [exact Hself|].
  split; [exact Hsz|]. apply (Aligned_sizes st); auto.
Qed.

Lemma _save_params_runs (st : State F) :
  Aligned st ->
  exists st2,
    _save_params st = (st2, Ok tt) /\ data st2 = data st /\
    target_modules (self st2) = target_modules (self st) /\
    (forall i m, target_modules (self st) !! i = Some m ->
       saved_params (self st2) !! i = Some (data st m)) /\
    Aligned st2.
Proof.
  intros HA. rewrite _save_params_unfold.
  destruct (save_loop (length (saved_params (self st))) 0 st)
    as (st2 & Hrun & Hd & Ht & Hn & Hl & Hin & _).
  { intros i Hi.
    destruct (lookup_lt_is_Some_2 (saved_params (self st)) i) as [b Hb]; [lia|].
    destruct (lookup_lt_is_Some_2 (target_modules (self st)) i) as [m Hm].
    { rewrite <- (al_saved st HA). lia. }
    exists m, b. split; [exact Hm|]. split; [exact Hb|].
    now destruct (al_sizes st HA i m b Hm Hb). }
  assert (Hsaved : forall i m, target_modules (self st) !! i = Some m ->
            saved_params (self st2) !! i = Some (data st m)).
  { intros i m Hm. apply Hin; [|exact Hm].
    apply lookup_lt_Some in Hm. rewrite <- (al_saved st HA) in Hm. lia. }
  exists st2. split; [exact Hrun|]. split; [exact Hd|]. split; [exact Ht|].
  split; [exact Hsaved|].
  split.
  - rewrite Hl, Ht. apply HA.
  - rewrite Hn, Ht. apply HA.
  - rewrite Ht, Hd. intros i m b Hm Hb.
    rewrite (Hsaved i m Hm) in Hb. injection Hb as <-.
    split; [|reflexivity]. apply (Aligned_target st m HA). eapply lookup_In, Hm.
Qed.

Lemma _binarize_weights_runs (st : State F) :
  Aligned st ->
  exists st3,
    _binarize_weights st = (st3, Ok tt) /\ self st3 = self st /\
    (forall p, size (data st3 p) = size (data st p)) /\
    Aligned st3.
Proof.
  intros HA. rewrite _binarize_weights_unfold.
  destruct (binarize_loop_sizes (target_modules (self st)) st None)
    as (st3 & mean' & Hrun & Hself & Hsz).
  { intros m Hm. now apply Aligned_target. }
  rewrite Hrun. exists st3. split; [reflexivity|]. split; [exact Hself|].
  split; [exact Hsz|]. apply (Aligned_sizes st); auto.
Qed.

Lemma restore_weights_runs (st : State F) :
  Aligned st ->
  (forall i j m, target_modules (self st) !! i = Some m ->
                 target_modules (self st) !! j = Some m ->
                 saved_params (self st) !! i = saved_params (self st) !! j) ->
  exists st4,
    restore_weights st = (st4, Ok tt) /\ self st4 = self st /\
    (forall i m, target_modules (self st) !! i = Some m ->
       saved_params (self st) !! i = Some (data st4 m)) /\
    (forall p, ~ In p (target_modules (self st)) -> data st4 p = data st p) /\
    Aligned st4.
Proof.
  intros HA Hsame. rewrite restore_weights_unfold.
  assert (Hpair : forall i, i < length (target_modules (self st)) ->
            exists m b, target_modules (self st) !! i = Some m /\
                        saved_params (self st) !! i = Some b /\
                        size (data st m) = size b).
  { intros i Hi.
    destruct (lookup_lt_is_Some_2 (target_modules (self st)) i) as [m Hm]; [lia|].
    destruct (lookup_lt_is_Some_2 (saved_params (self st)) i) as [b Hb].
    { rewrite (al_saved st HA). lia. }
    exists m, b. split; [exact Hm|]. split; [exact Hb|].
    now destruct (al_sizes st HA i m b Hm Hb). }
  destruct (restore_loop_shared (num_of_params (self st)) 0 st)
    as (st4 & Hrun & Hself & Hin & Hout).
  { intros i Hi. apply Hpair. rewrite <- (al_num st HA). lia. }
  { exact Hsame. }
  assert (Hdata : forall i m, target_modules (self st) !! i = Some m ->
            saved_params (self st) !! i = Some (data st4 m)).
  { intros i m Hm. pose proof (lookup_lt_Some _ _ _ Hm) as Hi.
    destruct (Hpair i Hi) as (m' & b & Hm' & Hb & _).
    rewrite Hm in Hm'. injection Hm' as <-.
    rewrite Hb. f_equal. symmetry. apply (Hin i); auto.
    rewrite (al_num st HA). lia. }
  exists st4. split; [exact Hrun|]. split; [exact Hself|].
  split; [exact Hdata|]. split.
  - intros p Hp. apply Hout. intros i _ Hc. apply Hp. eapply lookup_In, Hc.
  - apply (Aligned_sizes st); [exact HA | exact Hself|].
    intros m Hm. apply list_elem_of_In, list_elem_of_lookup in Hm as [i Hm].
    pose proof (Hdata i m Hm) as Hb.
    now destruct (al_sizes st HA i m _ Hm Hb).
Qed.

(** *** The four steps, when every parameter is tracked once *)

Lemma center_and_clamp_ok (st : State F) :
  Inv st ->
  exists st1,
    center_and_clamp st = (st1, Ok tt) /\ self st1 = self st /\
    (forall m, In m (target_modules (self st)) ->
       center_clamp (data st m) = Ok (data st1 m)) /\
    (forall p, ~ In p (target_modules (self st)) -> data st1 p = data st p) /\
    Inv st1.
Proof.
  intros HI. rewrite center_and_clamp_unfold.
  destruct (for_each_updates center_body center_clamp
              (target_modules (self st)) center_body_updates st)
    as (st1 & Hrun & Hself & Hin & Hout).
  { apply HI. }
  { intros m Hm. pose proof (Inv_target st m HI Hm) as Hsup.
    destruct (center_clamp_ok _ (supported_dim _ Hsup)) as (v & Hv & _).
    now exists v. }
  exists st1. split; [exact Hrun|]. split; [exact Hself|].
  split; [exact Hin|]. split; [exact Hout|].
  apply (Inv_sizes st); [exact HI | exact Hself|].
  intros m Hm. apply center_clamp_size. now apply Hin.
Qed.

Lemma _save_params_ok (st : State F) :
  Inv st ->
  exists st2,
    _save_params st = (st2, Ok tt) /\ data st2 = data st /\
    target_modules (self st2) = target_modules (self st) /\
    (forall i m, target_modules (self st) !! i = Some m ->
       saved_params (self st2) !! i = Some (data st m)) /\
    Inv st2.
Proof.
  intros [Hnd HA].
  destruct (_save_params_runs st HA) as (st2 & Hrun & Hd & Ht & Hs & HA2).
  exists st2. repeat (split; [assumption|]). split; [now rewrite Ht | exact HA2].
Qed.

Lemma _binarize_weights_ok (st : State F) :
  Inv st ->
  exists st3,
    _binarize_weights st = (st3, Ok tt) /\ self st3 = self st /\
    (forall m, In m (target_modules (self st)) ->
       binarize_tensor (data st m) = Ok (data st3 m)) /\
    (forall p, ~ In p (target_modules (self st)) -> data st3 p = data st p) /\
    Inv st3.
Proof.
  intros HI. rewrite _binarize_weights_unfold.
  destruct (binarize_loop (target_modules (self st)) st None)
    as (st3 & mean' & Hrun & Hself & Hin & Hout).
  { apply HI. }
  { intros m Hm. pose proof (Inv_target st m HI Hm) as Hsup.
    destruct (binarize_tensor_ok _ Hsup) as (v & sc & _ & Hv & _).
    now exists v. }
  rewrite Hrun. exists st3. split; [reflexivity|]. split; [exact Hself|].
  split; [exact Hin|]. split; [exact Hout|].
  apply (Inv_sizes st); [exact HI | exact Hself|].
  intros m Hm. pose proof (Inv_target st m HI Hm) as Hsup.
  destruct (binarize_tensor_ok _ Hsup) as (v & sc & _ & Hv & Hs & _).
  rewrite (Hin m Hm) in Hv. injection Hv as ->. exact Hs.
Qed.

Lemma restore_weights_ok (st : State F) :
  Inv st ->
  exists st4,
    restore_weights st = (st4, Ok tt) /\ self st4 = self st /\
    (forall i m, target_modules (self st) !! i = Some m ->
       saved_params (self st) !! i = Some (data st4 m)) /\
    (forall p, ~ In p (target_modules (self st)) -> data st4 p = data st p) /\
    Inv st4.
Proof.
  intros [Hnd HA].
  destruct (restore_weights_runs st HA)
    as (st4 & Hrun & Hself & Hd & Hout & HA4).
  { intros i j m Hi Hj. now rewrite (NoDup_lookup _ _ _ _ Hnd Hi Hj). }
  exists st4. repeat (split; [assumption|]).
  split; [now rewrite Hself | exact HA4].
Qed.

(** ** Construction *)

Lemma init_loop (model : list Module_) (st : State F) :
  for_each model (fun m =>
    match eligible m with
    | Some w =>
        let* d := get_data w in
        let* sp := get_saved_params in
        set_saved_params (sp ++ [clone d]) >>
        let* tm := get_target_modules in
        set_target_modules (tm ++ [w])
    | None => ret tt
    end) st =
  (mkState (data st)
     (mkSelf (saved_params (self st) ++ map (data st) (eligible_weights model))
             (target_modules (self st) ++ eligible_weights model)
             (num_of_params (self st))),
   Ok tt).
Proof.
  revert st. induction model as [|m model IH]; intros [dt [sp tm n]]; simpl.
  - unfold ret. now rewrite !app_nil_r.
  - unfold eligible_weights in *. simpl.
    destruct (eligible m) as [w|]; unfold bind; simpl.
    + rewrite IH. simpl. now rewrite <- !app_assoc.
    + rewrite IH. reflexivity.
Qed.

Lemma slice_1_m1_map {X Y} (f : X -> Y) (l : list X) :
  slice_1_m1 (map f l) = map f (slice_1_m1 l).
Proof.
  unfold slice_1_m1. rewrite length_map.
  change (map f) with (fmap (M:=list) f).
  now rewrite fmap_take, fmap_drop.
Qed.

Lemma init_spec (model : list Module_) (flag : bool) (st : State F) :
  __init__ model flag st =
  (mkState (data st)
     (mkSelf (map (data st) (tracked model flag))
             (tracked model flag)
             (length (tracked model flag))),
   Ok tt).
Proof.
  unfold __init__, tracked.
  unfold bind at 1. simpl. unfold bind at 1. simpl.
  unfold bind at 1. rewrite init_loop. simpl.
  unfold bind at 1. simpl. unfold bind at 1.
  destruct (flag && (2 <? length (eligible_weights model))); simpl.
  - unfold bind; simpl. now rewrite slice_1_m1_map.
  - unfold bind; simpl. reflexivity.
Qed.

Lemma slice_1_m1_spec {X} (l : list X) :
  2 <= length l -> exists first last, l = first :: slice_1_m1 l ++ [last].
Proof.
  destruct l as [|a l]; simpl; [lia|]. intros H.
  destruct l as [|b l _] using rev_ind; [simpl in H; lia|].
  exists a, b. unfold slice_1_m1. simpl.
  rewrite length_app. simpl.
  replace (length l + 1 - 0 - 1) with (length l) by lia.
  now rewrite drop_0, take_app_length.
Qed.

(** [C3] Construction with the exclusion policy on: with at least three
    eligible layers the tracked list is the eligible list without its
    first and its last entry (so entries 1 and 2 of four), with fewer
    than three it is the whole eligible list (so both of two); one
    shadow buffer per tracked parameter holds a clone of its value. *)
Theorem exclusion_policy (model : list Module_) (st : State F) :
  exists st',
    __init__ model true st = (st', Ok tt) /\
    data st' = data st /\
    saved_params (self st') = map (data st) (target_modules (self st')) /\
    num_of_params (self st') = length (target_modules (self st')) /\
    (3 <= length (eligible_weights model) ->
       exists first last,
         eligible_weights model =
           first :: target_modules (self st') ++ [last]) /\
    (length (eligible_weights model) < 3 ->
       target_modules (self st') = eligible_weights model) /\
    (length (eligible_weights model) = 4 ->
       exists a b c d,
         eligible_weights model = [a; b; c; d] /\
         target_modules (self st') = [b; c]) /\
    (length (eligible_weights model) = 2 ->
       target_modules (self st') = eligible_weights model).
Proof.
  eexists. split; [apply init_spec|]. simpl. unfold tracked. simpl.
  repeat split.
  - intros H. replace (2 <? _) with true by (symmetry; apply Nat.ltb_lt; lia).
    apply slice_1_m1_spec. lia.
  - intros H. replace (2 <? _) with false by (symmetry; apply Nat.ltb_ge; lia).
    reflexivity.
  - intros H. rewrite H. simpl.
    destruct (eligible_weights model) as [|a [|b [|c [|d [|e l]]]]];
      try discriminate H.
    exists a, b, c, d. split; reflexivity.
  - intros H. rewrite H. reflexivity.
Qed.

(** [C4], as the code has it: constructing on a model without eligible
    layers returns normally, with an empty tracked list, an empty shadow
    store and [num_of_params = 0]; the parameters are untouched. *)
Theorem init_no_eligible (model : list Module_) (flag : bool) (st : State F) :
  eligible_weights model = [] ->
  exists st',
    __init__ model flag st = (st', Ok tt) /\
    data st' = data st /\
    saved_params (self st') = [] /\
    target_modules (self st') = [] /\
    num_of_params (self st') = 0.
Proof.
  intros H. eexists. split; [apply init_spec|].
  unfold tracked. rewrite H. simpl. rewrite andb_false_r. simpl. tauto.
Qed.

(** ** The cycle *)

Lemma bind_assoc {A B C} (c : M F A) (f : A -> M F B) (g : B -> M F C) (st : State F) :
  bind (bind c f) g st = bind c (fun a => bind (f a) g) st.
Proof.
  unfold bind. destruct (c st) as [st1 [a|e]]; [|reflexivity].
  reflexivity.
Qed.

(** One cycle from a well-formed state. *)
Lemma cycle_ok (st : State F) :
  Inv st ->
  exists st1 st2 st3 st4,
    center_and_clamp st = (st1, Ok tt) /\
    _save_params st1 = (st2, Ok tt) /\
    _binarize_weights st2 = (st3, Ok tt) /\
    binarize_weights st = (st3, Ok tt) /\
    restore_weights st3 = (st4, Ok tt) /\
    Inv st1 /\ Inv st2 /\ Inv st3 /\ Inv st4 /\
    self st1 = self st /\
    target_modules (self st2) = target_modules (self st) /\
    data st2 = data st1 /\
    self st3 = self st2 /\ self st4 = self st2 /\
    (forall i m, target_modules (self st) !! i = Some m ->
       saved_params (self st2) !! i = Some (data st1 m) /\
       data st4 m = data st1 m).
Proof.
  intros HI.
  destruct (center_and_clamp_ok st HI) as (st1 & R1 & S1 & _ & _ & I1).
  destruct (_save_params_ok st1 I1) as (st2 & R2 & D2 & T2 & Sv & I2).
  destruct (_binarize_weights_ok st2 I2) as (st3 & R3 & S3 & _ & _ & I3).
  destruct (restore_weights_ok st3 I3) as (st4 & R4 & S4 & Rs & _ & I4).
  exists st1, st2, st3, st4.
  split; [exact R1|]. split; [exact R2|]. split; [exact R3|].
  split; [unfold binarize_weights, bind; now rewrite R1, R2|].
  split; [exact R4|].
  repeat (split; [first [assumption | congruence]|]).
  intros i m Hm. rewrite <- S1 in Hm.
  pose proof (Sv i m Hm) as Hs. split; [exact Hs|].
  assert (Hm3 : target_modules (self st3) !! i = Some m) by congruence.
  pose proof (Rs i m Hm3) as H4. rewrite S3, Hs in H4. congruence.
Qed.

(** One cycle from an aligned state: a weight may be shared. *)
Lemma cycle_runs (st : State F) :
  Aligned st ->
  exists st1 st2 st3 st4,
    center_and_clamp st = (st1, Ok tt) /\
    _save_params st1 = (st2, Ok tt) /\
    binarize_weights st = (st3, Ok tt) /\
    restore_weights st3 = (st4, Ok tt) /\
    Aligned st4 /\
    target_modules (self st4) = target_modules (self st) /\
    self st4 = self st2 /\
    (forall i m, target_modules (self st) !! i = Some m ->
       saved_params (self st2) !! i = Some (data st1 m) /\
       data st4 m = data st1 m).
Proof.
  intros HA.
  destruct (center_and_clamp_runs st HA) as (st1 & R1 & S1 & _ & A1).
  destruct (_save_params_runs st1 A1) as (st2 & R2 & D2 & T2 & Sv & A2).
  destruct (_binarize_weights_runs st2 A2) as (st3 & R3 & S3 & _ & A3).
  assert (Hs3 : forall i m, target_modules (self st3) !! i = Some m ->
                  saved_params (self st3) !! i = Some (data st1 m)).
  { intros i m Hm. rewrite S3 in *. rewrite T2 in Hm. now apply Sv. }
  destruct (restore_weights_runs st3 A3) as (st4 & R4 & S4 & Rs & _ & A4).
  { intros i j m Hi Hj. now rewrite (Hs3 i m Hi), (Hs3 j m Hj). }
  exists st1, st2, st3, st4.
  split; [exact R1|]. split; [exact R2|].
  split; [unfold binarize_weights, bind; now rewrite R1, R2|].
  split; [exact R4|]. split; [exact A4|].
  split; [congruence|]. split; [congruence|].
  intros i m Hm. rewrite <- S1 in Hm.
  pose proof (Sv i m Hm) as Hs. split; [exact Hs|].
  assert (Hm3 : target_modules (self st3) !! i = Some m) by congruence.
  pose proof (Rs i m Hm3) as H4. rewrite (Hs3 i m Hm3) in H4. congruence.
Qed.

Lemma cycles_runs (k : nat) (st : State F) :
  Aligned st ->
  exists st', cycles k st = (st', Ok tt) /\ Aligned st' /\
              target_modules (self st') = target_modules (self st).
Proof.
  intros HA. induction k as [|k IH].
  - exists st. split; [reflexivity|]. split; [exact HA | reflexivity].
  - destruct IH as (st0 & R0 & A0 & T0).
    destruct (cycle_runs st0 A0)
      as (st1 & st2 & st3 & st4 & _ & _ & Rb & Rr & A4 & T4 & _).
    exists st4. split.
    + simpl. unfold bind. now rewrite R0, Rb.
    + split; [exact A4 | congruence].
Qed.

(** [C1] From an aligned state, after any number [k] of
    [binarize_weights(); restore_weights()] cycles one more cycle runs
    through.  Its save step copies into each shadow buffer the value its
    tracked parameter holds at that step (the value the centering loop
    left), and after its [restore_weights()] the parameter holds that
    value again; the buffer still holds it. *)
Theorem round_trip (st : State F) (k : nat) :
  aligned st = true ->
  exists st0 st1 st2 st3 st4,
    cycles k st = (st0, Ok tt) /\
    center_and_clamp st0 = (st1, Ok tt) /\
    _save_params st1 = (st2, Ok tt) /\
    binarize_weights st0 = (st3, Ok tt) /\
    restore_weights st3 = (st4, Ok tt) /\
    cycles (S k) st = (st4, Ok tt) /\
    target_modules (self st4) = target_modules (self st) /\
    forall i m, target_modules (self st) !! i = Some m ->
      saved_params (self st2) !! i = Some (data st1 m) /\
      data st4 m = data st1 m /\
      saved_params (self st2) !! i = Some (data st4 m) /\
      saved_params (self st4) !! i = Some (data st4 m).
Proof.
  intros Hal. apply aligned_Aligned in Hal.
  destruct (cycles_runs k st Hal) as (st0 & R0 & A0 & T0).
  destruct (cycle_runs st0 A0)
    as (st1 & st2 & st3 & st4 & R1 & R2 & Rb & Rr & _ & T4 & S4 & Hv).
  exists st0, st1, st2, st3, st4.
  repeat (split; [assumption|]).
  split; [simpl; unfold bind; now rewrite R0, Rb|].
  split; [congruence|].
  intros i m Hm. rewrite <- T0 in Hm. destruct (Hv i m Hm) as [H1 H2].
  rewrite S4, H2. auto.
Qed.

Lemma in_range_hd (s idx : list nat) :
  in_range s idx -> s <> [] -> hd 0 idx < hd 0 s.
Proof.
  destruct s as [|n s]; [congruence|]. destruct idx as [|i idx]; simpl; tauto.
Qed.

Lemma supported_nonempty (d : Tensor F) : supported d = true -> size d <> [].
Proof.
  intros H Hs. unfold supported, dim in H. rewrite Hs in H. discriminate H.
Qed.

(** [C2], when every parameter is tracked once: from a well-formed
    state [binarize_weights()] returns, and every tracked parameter then
    holds, entry by entry, the sign of its saved value [w] times the
    scale of the output channel or unit of the entry, as the arithmetic
    of the tensor computes them: 1 times the scale where [w] is
    positive, -1 times the scale where it is negative, 0 times the scale
    where it is neither. *)
Theorem binarized_values (st : State F) :
  well_formed st = true ->
  exists st',
    binarize_weights st = (st', Ok tt) /\
    forall i m, target_modules (self st) !! i = Some m ->
      exists w,
        saved_params (self st') !! i = Some w /\
        size (data st' m) = size w /\
        forall idx, in_range (size w) idx ->
          at_ (data st' m) idx =
            fmul (sgn (at_ w idx)) (scale_spec w (hd 0 idx)) /\
          (flt (of_Z 0) (at_ w idx) = true ->
           at_ (data st' m) idx = fmul (of_Z 1) (scale_spec w (hd 0 idx))) /\
          (flt (of_Z 0) (at_ w idx) = false ->
           flt (at_ w idx) (of_Z 0) = true ->
           at_ (data st' m) idx =
             fmul (of_Z (-1)) (scale_spec w (hd 0 idx))) /\
          (flt (of_Z 0) (at_ w idx) = false ->
           flt (at_ w idx) (of_Z 0) = false ->
           at_ (data st' m) idx = fmul (of_Z 0) (scale_spec w (hd 0 idx))).
Proof.
  intros Hwf. apply well_formed_Inv in Hwf.
  destruct (cycle_ok st Hwf)
    as (st1 & st2 & st3 & st4 & R1 & R2 & R3 & Rb & _ & I1 & I2 & _ & _
        & S1 & T2 & D2 & S3 & _ & Hv).
  exists st3. split; [exact Rb|]. intros i m Hm.
  destruct (Hv i m Hm) as [Hs _].
  exists (data st1 m). split; [now rewrite S3|].
  assert (Hin : In m (target_modules (self st2))).
  { rewrite T2. eapply lookup_In, Hm. }
  destruct (_binarize_weights_ok st2 I2) as (st3' & R3' & _ & Hb & _).
  rewrite R3 in R3'. injection R3' as <-.
  pose proof (Inv_target st2 m I2 Hin) as Hsup.
  destruct (binarize_tensor_ok _ Hsup) as (v & sc & _ & Hv' & Hsz & Hsc & Hat).
  rewrite (Hb m Hin) in Hv'. injection Hv' as <-.
  rewrite D2 in *. split; [exact Hsz|].
  intros idx Hi.
  assert (E : at_ (data st3 m) idx =
              fmul (sgn (at_ (data st1 m) idx))
                   (scale_spec (data st1 m) (hd 0 idx))).
  { rewrite (Hat idx Hi). rewrite Hsc; [reflexivity|].
    apply in_range_hd; [exact Hi | now apply supported_nonempty]. }
  split; [exact E|]. rewrite E.
  destruct (sgn_cases (at_ (data st1 m) idx))
    as [[Hp ->] | [(Hp & Hn & ->) | (Hp & Hn & ->)]];
    repeat split; intros; try reflexivity; congruence.
Qed.

Lemma clamp1_cases (lo hi x : F) :
  clamp1 lo hi x = lo \/ clamp1 lo hi x = hi \/
  (clamp1 lo hi x = x /\ flt x lo = false /\ flt hi x = false).
Proof.
  unfold clamp1. destruct (flt x lo); [now left|].
  destruct (flt hi x); [right; now left|]. right; right; auto.
Qed.

(** [C6], when every parameter is tracked once: from a well-formed
    state, the first loop of [binarize_weights()] centers each tracked
    parameter along axis 1 and clamps it to [-1, 1], in the arithmetic
    of the tensor; [_save_params] runs after it and copies that value,
    which the shadow buffer still holds when [binarize_weights()]
    returns.  Each saved entry is -1, 1, or the centered entry, which is
    then neither below -1 nor above 1. *)
Theorem saved_is_centered_clamped (st : State F) :
  well_formed st = true ->
  exists st1 st2 st3,
    center_and_clamp st = (st1, Ok tt) /\
    _save_params st1 = (st2, Ok tt) /\
    binarize_weights st = (st3, Ok tt) /\
    forall i m, target_modules (self st) !! i = Some m ->
      exists w,
        saved_params (self st2) !! i = Some w /\
        saved_params (self st3) !! i = Some w /\
        w = data st1 m /\
        size w = size (data st m) /\
        forall idx, in_range (size w) idx ->
          at_ w idx = center_clamp_spec (data st m) idx /\
          (at_ w idx = of_Z (-1) \/ at_ w idx = of_Z 1 \/
           (at_ w idx =
              fadd (at_ (data st m) idx)
                   (fmul (mean_spec (data st m) idx) (of_Z (-1))) /\
            flt (at_ w idx) (of_Z (-1)) = false /\
            flt (of_Z 1) (at_ w idx) = false)).
Proof.
  intros Hwf. apply well_formed_Inv in Hwf.
  destruct (cycle_ok st Hwf)
    as (st1 & st2 & st3 & st4 & R1 & R2 & R3 & Rb & _ & I1 & I2 & _ & _
        & S1 & T2 & D2 & S3 & _ & Hv).
  exists st1, st2, st3. repeat (split; [assumption|]).
  intros i m Hm. destruct (Hv i m Hm) as [Hs _].
  exists (data st1 m). split; [exact Hs|]. split; [now rewrite S3|].
  split; [reflexivity|].
  assert (Hin : In m (target_modules (self st))) by (eapply lookup_In, Hm).
  destruct (center_and_clamp_ok st Hwf) as (st1' & R1' & _ & Hc & _).
  rewrite R1 in R1'. injection R1' as <-.
  pose proof (Inv_target st m Hwf Hin) as Hsup.
  destruct (center_clamp_ok _ (supported_dim _ Hsup)) as (v & Hv' & Hsz & Hat).
  rewrite (Hc m Hin) in Hv'. injection Hv' as <-.
  split; [exact Hsz|]. intros idx Hi. rewrite Hsz in Hi.
  split; [now apply Hat|]. rewrite (Hat idx Hi). unfold center_clamp_spec.
  destruct (clamp1_cases (of_Z (-1)) (of_Z 1)
              (fadd (at_ (data st m) idx)
                    (fmul (mean_spec (data st m) idx) (of_Z (-1)))))
    as [-> | [-> | (E & H1 & H2)]]; [now left | right; now left|].
  right; right. rewrite E. auto.
Qed.

Lemma Forall_in_range_map {X} (P : F -> Prop) (g : X -> F) (l : list X) :
  (forall x, In x l -> P (g x)) -> Forall P (map g l).
Proof.
  intros H. apply Forall_forall. intros y Hy.
  apply list_elem_of_In, in_map_iff in Hy as (x & <- & Hx). now apply H.
Qed.

(** The scale of a slice of zeros that is not empty is zero. *)
Lemma scale_spec_zero (w : Tensor F) (o : nat) :
  ZeroLaws F ->
  supported w = true -> o < hd 0 (size w) -> numel (tl (size w)) <> 0 ->
  (forall idx, in_range (size w) (o :: idx) -> is_zero (at_ w (o :: idx))) ->
  is_zero (scale_spec w o).
Proof.
  intros L Hsup Ho Hn Hz. unfold scale_spec.
  destruct (supported_cases w Hsup) as
    [(no & ni & Hs & Hno) | (no & nc & nh & nw & Hs & Hno)];
    rewrite Hs in *; cbn [hd tl] in Ho, Hn.
  - apply (fdiv_zero L); [|exact Hn]. apply (fnorm1_zero L).
    apply Forall_in_range_map. intros k Hk. apply in_seq in Hk.
    apply Hz. simpl. lia.
  - apply (fdiv_zero L); [|exact Hn]. apply (fsum_zero L).
    apply Forall_in_range_map. intros ch Hch.
    apply (indices_in_range [nc; nh]) in Hch.
    destruct ch as [|c [|h [|? ?]]]; simpl in Hch; try tauto.
    apply (fnorm1_zero L).
    apply Forall_in_range_map. intros x Hx. apply in_seq in Hx.
    apply Hz. simpl. lia.
Qed.


Lemma run_ok {A} (x : State F * outcome A) (a : A) :
  snd x = Ok a -> x = (fst x, Ok a).
Proof. destruct x as [st r]. simpl. now intros ->. Qed.

(** What the first two steps of [binarize_weights()] can raise. *)
Lemma bind_python {X Y} (c : M F X) (k : X -> M F Y) :
  raises_python c -> (forall x, raises_python (k x)) ->
  raises_python (bind c k).
Proof.
  intros Hc Hk st e. unfold bind.
  destruct (c st) as [st1 [x|e1]] eqn:E.
  - apply Hk.
  - simpl. intros H. injection H as <-. apply (Hc st). now rewrite E.
Qed.

Lemma for_each_python {X} (l : list X) (body : X -> M F unit) :
  (forall x, raises_python (body x)) -> raises_python (for_each l body).
Proof.
  intros H. induction l as [|x l IH]; simpl.
  - intros st e. discriminate.
  - apply bind_python; [apply H | intros _; exact IH].
Qed.

Lemma center_body_python (m : ParamId) : raises_python (center_body m).
Proof.
  intros st e. pose proof (center_body_updates m st) as H.
  destruct (center_clamp (data st m)) as [v|e0] eqn:E.
  - destruct H as (st' & -> & _). discriminate.
  - rewrite H. simpl. intros H0. injection H0 as <-.
    unfold center_clamp in E. destruct (mean 1 (data st m)) eqn:E1; simpl in E.
    + destruct (add _ _) eqn:E2; simpl in E; [discriminate|].
      injection E as <-. apply binop_exn in E2. subst. right; now left.
    + injection E as <-. apply mean_exn in E1. subst. now left.
Qed.

Lemma save_body_python (i : nat) : raises_python (save_body i).
Proof.
  intros st e.
  unfold save_body, bind, get_saved_params, get_target_modules, getitem,
    get_data, lift, set_saved_params, ret, raise. simpl.
  destruct (saved_params (self st) !! i) as [b|]; simpl;
    [|intros H; injection H as <-; now left].
  destruct (target_modules (self st) !! i) as [m|]; simpl;
    [|intros H; injection H as <-; now left].
  destruct (copy_ b (data st m)) as [v|e0] eqn:E; simpl; [discriminate|].
  intros H. injection H as <-. apply copy__exn in E. subst. right; now left.
Qed.

Lemma center_and_save_python : raises_python (center_and_clamp >> _save_params).
Proof.
  apply bind_python.
  - intros st. rewrite center_and_clamp_unfold.
    apply for_each_python, center_body_python.
  - intros _ st. rewrite _save_params_unfold.
    apply for_each_python, save_body_python.
Qed.

(** What one cycle leaves in a tracked parameter. *)
Lemma cycle_entries (st : State F) :
  Inv st ->
  exists st4,
    (binarize_weights >> restore_weights) st = (st4, Ok tt) /\
    (forall p, ~ In p (target_modules (self st)) -> data st4 p = data st p) /\
    forall m idx, In m (target_modules (self st)) ->
      size (data st4 m) = size (data st m) /\
      (in_range (size (data st m)) idx ->
       at_ (data st4 m) idx = center_clamp_spec (data st m) idx).
Proof.
  intros Hwf.
  destruct (cycle_ok st Hwf)
    as (st1 & st2 & st3 & st4 & R1 & R2 & R3 & Rb & Rr & I1 & I2 & I3 & _
        & S1 & T2 & D2 & S3 & _ & Hv).
  exists st4. split; [unfold bind; now rewrite Rb|].
  destruct (center_and_clamp_ok st Hwf) as (st1' & R1' & _ & Hc & Ho1 & _).
  rewrite R1 in R1'. injection R1' as <-.
  destruct (_binarize_weights_ok st2 I2) as (st3' & R3' & _ & _ & Ho3 & _).
  rewrite R3 in R3'. injection R3' as <-.
  destruct (restore_weights_ok st3 I3) as (st4' & R4' & _ & _ & Ho4 & _).
  rewrite Rr in R4'. injection R4' as <-.
  split.
  - intros p Hp. rewrite Ho4, Ho3, D2, Ho1; auto; congruence.
  - intros m idx Hm.
    apply list_elem_of_In, list_elem_of_lookup in Hm as [i Hi].
    destruct (Hv i m Hi) as [_ H4]. rewrite H4.
    assert (Hin : In m (target_modules (self st))) by (eapply lookup_In, Hi).
    pose proof (Inv_target st m Hwf Hin) as Hsup.
    destruct (center_clamp_ok _ (supported_dim _ Hsup)) as (v & Hv' & Hsz & Hat).
    rewrite (Hc m Hin) in Hv'. injection Hv' as <-.
    split; [exact Hsz | apply Hat].
Qed.

(** [X13] From a well-formed state, one [binarize_weights();
    restore_weights()] cycle is not the identity on the tracked
    parameters: it returns and leaves each of their entries centered
    along axis 1 and clamped to [-1, 1], as the arithmetic of the tensor
    computes it, the size of the parameter and the untracked parameters
    as they were. *)
Theorem cycle_centers_and_clamps (st : State F) :
  well_formed st = true ->
  exists st',
    (binarize_weights >> restore_weights) st = (st', Ok tt) /\
    (forall p, ~ In p (target_modules (self st)) -> data st' p = data st p) /\
    forall m idx, In m (target_modules (self st)) ->
      size (data st' m) = size (data st m) /\
      (in_range (size (data st m)) idx ->
       at_ (data st' m) idx = center_clamp_spec (data st m) idx).
Proof.
  intros Hwf. apply well_formed_Inv in Hwf.
  destruct (cycle_entries st Hwf) as (st4 & R & Hout & H).
  exists st4. split; [exact R|]. split; [exact Hout | exact H].
Qed.

(** [C5], for the first tracked parameter: when its rank is neither 2
    nor 4, [binarize_weights()] raises [IndexError], [RuntimeError] or
    [UnboundLocalError], never [ConfigurationError], and the state it
    leaves is the one centering, clamping and saving left: nothing has
    been binarized. *)
Theorem unsupported_first_raises (st : State F) (m0 : ParamId)
        (rest : list ParamId) :
  target_modules (self st) = m0 :: rest ->
  dim (data st m0) <> 2 -> dim (data st m0) <> 4 ->
  exists st' e,
    binarize_weights st = (st', Raise e) /\
    e <> ConfigurationError /\
    (e = IndexError \/ e = RuntimeError \/ e = UnboundLocalError) /\
    ((center_and_clamp >> _save_params) st = (st', Raise e) \/
     (center_and_clamp >> _save_params) st = (st', Ok tt)).
Proof.
  intros HT H2 H4.
  assert (Hc : respects (calm (m0 :: rest)) (center_and_clamp >> _save_params)).
  { apply (respects_bind _ (calm_trans _)); [apply center_and_clamp_calm|].
    intros _. apply _save_params_calm. }
  assert (Hb : binarize_weights st =
               bind (center_and_clamp >> _save_params)
                    (fun _ => _binarize_weights) st).
  { unfold binarize_weights. now rewrite bind_assoc. }
  specialize (Hc st). pose proof (center_and_save_python st) as Hp.
  rewrite Hb. unfold bind at 1.
  destruct ((center_and_clamp >> _save_params) st) as [st1 [[]|e]];
    simpl in Hc, Hp.
  - destruct Hc as [Hc _]. destruct (Hc HT) as (HT1 & _ & Hsz).
    rewrite _binarize_weights_unfold, HT1. simpl. unfold bind.
    destruct (binarize_body_unsupported m0 st1) as (e & -> & He).
    { unfold dim. rewrite Hsz. exact H2. }
    { unfold dim. rewrite Hsz. exact H4. }
    exists st1, e. split; [reflexivity|].
    split; [destruct He as [-> | ->]; discriminate|].
    split; [destruct He as [-> | ->]; auto | now right].
  - exists st1, e. split; [reflexivity|].
    split; [intros ->; now apply (proj2 Hc)|].
    split; [now apply Hp | now left].
Qed.

Lemma NoDup_slice_1_m1 {X} (l : list X) : NoDup l -> NoDup (slice_1_m1 l).
Proof.
  intros H. unfold slice_1_m1.
  eapply sublist_NoDup; [exact H|].
  etransitivity; [apply sublist_take | apply sublist_drop].
Qed.

Lemma In_slice_1_m1 {X} (l : list X) (x : X) : In x (slice_1_m1 l) -> In x l.
Proof.
  unfold slice_1_m1. intros H. apply list_elem_of_In in H.
  apply list_elem_of_In. eapply elem_of_sublist; [exact H|].
  etransitivity; [apply sublist_take | apply sublist_drop].
Qed.

(** Construction on a model whose eligible layers hold weights of the
    ranks [nn.Linear] and [nn.Conv2d] give them leaves an aligned state,
    and a well-formed one when no two of them share their weight. *)
Lemma init_Aligned (model : list Module_) (flag : bool) (st : State F) :
  (forall m, In m (eligible_weights model) -> supported (data st m) = true) ->
  Aligned (fst (__init__ model flag st)).
Proof.
  intros Hsup. rewrite init_spec. simpl.
  assert (Hsub : forall m, In m (tracked model flag) ->
                           In m (eligible_weights model)).
  { unfold tracked. destruct (_ && _); [apply In_slice_1_m1 | auto]. }
  split; simpl.
  - apply length_map.
  - reflexivity.
  - intros i m b Hm Hb.
    change (map (data st)) with (fmap (M:=list) (data st)) in Hb.
    rewrite list_lookup_fmap, Hm in Hb. injection Hb as <-.
    split; [|reflexivity]. apply Hsup, Hsub. eapply lookup_In, Hm.
Qed.

Lemma init_aligned (model : list Module_) (flag : bool) (st : State F) :
  (forall m, In m (eligible_weights model) -> supported (data st m) = true) ->
  aligned (fst (__init__ model flag st)) = true.
Proof. intros H. now apply aligned_Aligned, init_Aligned. Qed.

Lemma init_well_formed (model : list Module_) (flag : bool) (st : State F) :
  NoDup (eligible_weights model) ->
  (forall m, In m (eligible_weights model) -> supported (data st m) = true) ->
  well_formed (fst (__init__ model flag st)) = true.
Proof.
  intros Hnd Hsup. apply well_formed_Inv. split; [|now apply init_Aligned].
  rewrite init_spec. simpl.
  unfold tracked. destruct (_ && _); [now apply NoDup_slice_1_m1 | exact Hnd].
Qed.

(** ** What stays real *)

Lemma eligible_weights_cons (m : Module_) (model : list Module_) :
  eligible_weights (m :: model) = opt_list (eligible m) ++ eligible_weights model.
Proof. unfold eligible_weights. simpl. now destruct (eligible m). Qed.

Lemma eligible_weights_parameters (model : list Module_) (p : ParamId) :
  In p (eligible_weights model) -> In p (flat_map parameters model).
Proof.
  induction model as [|m model IH]; [tauto|].
  rewrite eligible_weights_cons. simpl flat_map. unfold parameters.
  rewrite !in_app_iff. tauto.
Qed.

Lemma other_parameters_parameters (model : list Module_) (p : ParamId) :
  In p (flat_map other_parameters model) -> In p (flat_map parameters model).
Proof.
  induction model as [|m model IH]; [tauto|].
  simpl. unfold parameters. rewrite !in_app_iff. tauto.
Qed.

Lemma NoDup_app_In {X} (l k : list X) (x : X) :
  NoDup (l ++ k) -> In x l -> In x k -> False.
Proof.
  intros H Hl Hk. apply NoDup_app in H as (_ & H & _).
  apply (H x); now apply list_elem_of_In.
Qed.

(** In a model that shares no parameter, a bias or a batch-normalization
    parameter is no eligible weight. *)
Lemma other_not_eligible (model : list Module_) (p : ParamId) :
  NoDup (flat_map parameters model) ->
  In p (flat_map other_parameters model) ->
  ~ In p (eligible_weights model).
Proof.
  induction model as [|m model IH]; [tauto|].
  rewrite eligible_weights_cons. simpl flat_map. unfold parameters at 1.
  intros Hnd Ho He. apply in_app_iff in Ho, He.
  pose proof Hnd as Hnd'. apply NoDup_app in Hnd' as (Hm & _ & Hrest).
  destruct He as [He | He], Ho as [Ho | Ho].
  - apply (NoDup_app_In _ _ p Hm He Ho).
  - apply (NoDup_app_In _ _ p Hnd); [apply in_app_iff; now left|].
    now apply other_parameters_parameters.
  - apply (NoDup_app_In _ _ p Hnd); [apply in_app_iff; now right|].
    now apply eligible_weights_parameters.
  - now apply (IH Hrest).
Qed.

Lemma NoDup_eligible_weights (model : list Module_) :
  NoDup (flat_map parameters model) -> NoDup (eligible_weights model).
Proof.
  induction model as [|m model IH]; intros H; [constructor|].
  simpl in H. rewrite eligible_weights_cons.
  pose proof H as H'. apply NoDup_app in H' as (Hm & _ & Hrest).
  apply NoDup_app. split; [|split].
  - unfold parameters in Hm. now apply NoDup_app in Hm as (Hm & _).
  - intros x Hx Hx'. apply list_elem_of_In in Hx, Hx'.
    apply (NoDup_app_In _ _ x H).
    + unfold parameters. apply in_app_iff. now left.
    + now apply eligible_weights_parameters.
  - now apply IH.
Qed.

Lemma first_last_not_in_slice {X} (first last : X) (mid : list X) :
  NoDup (first :: mid ++ [last]) ->
  slice_1_m1 (first :: mid ++ [last]) = mid /\
  ~ In first mid /\ ~ In last mid.
Proof.
  intros H. split.
  - unfold slice_1_m1. simpl. rewrite length_app. simpl.
    replace (length mid + 1 - 0 - 1) with (length mid) by lia.
    now rewrite drop_0, take_app_length.
  - apply NoDup_cons in H as [Hf H]. apply NoDup_app in H as (_ & Hd & _).
    split.
    + intros Hc. apply Hf. apply list_elem_of_In. apply in_app_iff. now left.
    + intros Hc. apply (Hd last); [now apply list_elem_of_In|].
      apply list_elem_of_In. now left.
Qed.

Lemma kept_real_untracked (model : list Module_) (p : ParamId) :
  NoDup (flat_map parameters model) -> kept_real model p ->
  ~ In p (tracked model true).
Proof.
  intros Hnd [Ho | (first & mid & last & Hel & Hmid & Hp)] Hin.
  - apply (other_not_eligible model p Hnd Ho).
    unfold tracked in Hin. destruct (_ && _); [|exact Hin].
    now apply In_slice_1_m1.
  - pose proof (NoDup_eligible_weights model Hnd) as Hnd'.
    rewrite Hel in Hnd'.
    destruct (first_last_not_in_slice first last mid Hnd') as (Hs & Hf & Hl).
    unfold tracked in Hin. rewrite Hel in Hin.
    replace (2 <? length (first :: mid ++ [last])) with true in Hin.
    + simpl in Hin. rewrite Hs in Hin. destruct Hp as [-> | ->]; tauto.
    + symmetry. apply Nat.ltb_lt. simpl. rewrite length_app. simpl.
      destruct mid; [congruence | simpl; lia].
Qed.

Lemma cycles_frame (T : list ParamId) (k : nat) : respects (frame T) (cycles k).
Proof.
  induction k as [|k IH]; simpl.
  - apply (respects_ret _ (frame_refl T)).
  - apply (respects_bind _ (frame_trans T)); [exact IH|]. intros _.
    apply (respects_bind _ (frame_trans T)); [apply binarize_weights_frame|].
    intros _. apply restore_weights_frame.
Qed.


(** ** What the calls keep *)

Lemma same_attributes_refl (st : State F) : same_attributes st st.
Proof. repeat split. Qed.

Lemma same_attributes_trans (a b c : State F) :
  same_attributes a b -> same_attributes b c -> same_attributes a c.
Proof. intros (H1 & H2 & H3) (H4 & H5 & H6). repeat split; congruence. Qed.

Lemma same_self_refl (st : State F) : same_self st st.
Proof. reflexivity. Qed.

Lemma same_self_trans (a b c : State F) : same_self a b -> same_self b c -> same_self a c.
Proof. unfold same_self. congruence. Qed.

Lemma same_self_attributes {A} (c : M F A) :
  respects same_self c -> respects same_attributes c.
Proof.
  intros H st. destruct (H st) as [H1 H2]. split; [|exact H2].
  unfold same_self in H1. unfold same_attributes. now rewrite H1.
Qed.

Lemma center_body_same_self m : respects same_self (center_body m).
Proof.
  intros st. pose proof (center_body_updates m st) as H.
  destruct (center_clamp (data st m)) as [v|e] eqn:E.
  - destruct H as (st' & Hrun & Hself & _). rewrite Hrun. simpl.
    split; [exact Hself | discriminate].
  - rewrite H. simpl. split; [reflexivity|].
    intros Hc. injection Hc as ->. now apply center_clamp_exn in E.
Qed.

Lemma binarize_body_same_self (mean : option (Tensor F)) m : respects same_self (binarize_body mean m).
Proof.
  intros st.
  unfold binarize_body, bind, get_data, lift, set_data, ret, raise. simpl.
  destruct (getitem0 (data st m)) as [d0|e] eqn:E0; simpl.
  2:{ split; [reflexivity|]. apply getitem0_exn in E0. congruence. }
  destruct (scale (data st m) (nelement d0)) as [a|e] eqn:E1; simpl.
  2:{ split; [reflexivity|]. apply scale_exn in E1. congruence. }
  destruct (match a with Some v => Some v | None => mean end) as [mv|]; simpl.
  2:{ split; [reflexivity | discriminate]. }
  destruct (mul (sign (data st m)) mv) as [r|e] eqn:E2; simpl.
  2:{ split; [reflexivity|]. apply binop_exn in E2. congruence. }
  split; [reflexivity | discriminate].
Qed.

Lemma restore_body_same_self i : respects same_self (restore_body i).
Proof.
  intros st.
  unfold restore_body, bind, get_saved_params, get_target_modules, getitem,
    get_data, lift, set_data, ret, raise. simpl.
  destruct (target_modules (self st) !! i) as [m|]; simpl;
    [|split; [reflexivity | discriminate]].
  destruct (saved_params (self st) !! i) as [b|]; simpl;
    [|split; [reflexivity | discriminate]].
  destruct (copy_ (data st m) b) as [v|e] eqn:E; simpl.
  - split; [reflexivity | discriminate].
  - split; [reflexivity|]. apply copy__exn in E. congruence.
Qed.

Lemma save_body_same_attributes i : respects same_attributes (save_body i).
Proof.
  intros st.
  unfold save_body, bind, get_saved_params, get_target_modules, getitem,
    get_data, lift, set_saved_params, ret, raise. simpl.
  destruct (saved_params (self st) !! i) as [b|]; simpl;
    [|split; [apply same_attributes_refl | discriminate]].
  destruct (target_modules (self st) !! i) as [m|]; simpl;
    [|split; [apply same_attributes_refl | discriminate]].
  destruct (copy_ b (data st m)) as [v|e] eqn:E; simpl.
  - split; [|discriminate]. repeat split; simpl. apply length_insert.
  - split; [apply same_attributes_refl|]. apply copy__exn in E. congruence.
Qed.

Lemma restore_weights_same_self : respects same_self restore_weights.
Proof.
  intros st. rewrite restore_weights_unfold.
  apply (respects_for_each same_self same_self_refl same_self_trans).
  intros i _. apply restore_body_same_self.
Qed.

Lemma center_and_clamp_same_self : respects same_self center_and_clamp.
Proof.
  intros st. rewrite center_and_clamp_unfold.
  apply (respects_for_each same_self same_self_refl same_self_trans).
  intros m _. apply center_body_same_self.
Qed.

Lemma _binarize_weights_same_self : respects same_self _binarize_weights.
Proof.
  intros st. rewrite _binarize_weights_unfold.
  pose proof (respects_for_with same_self same_self_refl same_self_trans
                (target_modules (self st)) binarize_body None
                (fun v m _ => binarize_body_same_self v m) st) as [H1 H2].
  destruct (for_with _ _ _ _) as [st' [v|e]]; simpl in *.
  - split; [exact H1 | discriminate].
  - split; [exact H1|]. intros Hc. apply H2. congruence.
Qed.

Lemma _save_params_same_attributes : respects same_attributes _save_params.
Proof.
  intros st. rewrite _save_params_unfold.
  apply (respects_for_each same_attributes same_attributes_refl
           same_attributes_trans).
  intros i _. apply save_body_same_attributes.
Qed.

Lemma _save_params_same_data (st : State F) :
  data (fst (_save_params st)) = data st.
Proof.
  rewrite _save_params_unfold.
  generalize 0 at 1. generalize (length (saved_params (self st))).
  intros n. revert st. induction n as [|n IH]; intros st a; [reflexivity|].
  simpl. unfold bind at 1.
  destruct (save_body a st) as [st1 [[]|e]] eqn:E.
  - rewrite IH.
    revert E. unfold save_body, bind, get_saved_params, get_target_modules,
      getitem, get_data, lift, set_saved_params, ret, raise. simpl.
    destruct (saved_params (self st) !! a); simpl; [|discriminate].
    destruct (target_modules (self st) !! a); simpl; [|discriminate].
    destruct (copy_ _ _); simpl; [|discriminate].
    intros H. now injection H as <-.
  - simpl. revert E.
    unfold save_body, bind, get_saved_params, get_target_modules,
      getitem, get_data, lift, set_saved_params, ret, raise. simpl.
    destruct (saved_params (self st) !! a); simpl;
      [|intros H; now injection H as <- _].
    destruct (target_modules (self st) !! a); simpl;
      [|intros H; now injection H as <- _].
    destruct (copy_ _ _); simpl; [discriminate|].
    intros H. now injection H as <- _.
Qed.

(** [X1] From a well-formed state, a second [restore_weights()] right
    after the first changes nothing: the object and every parameter are
    as the first call left them. *)
Theorem restore_idempotent (st : State F) :
  well_formed st = true ->
  exists st1 st2,
    restore_weights st = (st1, Ok tt) /\
    restore_weights st1 = (st2, Ok tt) /\
    self st2 = self st1 /\
    forall p, data st2 p = data st1 p.
Proof.
  intros Hwf. apply well_formed_Inv in Hwf.
  destruct (restore_weights_ok st Hwf) as (st1 & R1 & S1 & Hd1 & _ & I1).
  destruct (restore_weights_ok st1 I1) as (st2 & R2 & S2 & Hd2 & Hout2 & _).
  exists st1, st2. split; [exact R1|]. split; [exact R2|]. split; [exact S2|].
  intros p.
  destruct (in_dec Nat.eq_dec p (target_modules (self st1))) as [Hin | Hno].
  - apply list_elem_of_In, list_elem_of_lookup in Hin as [i Hi].
    pose proof (Hd2 i p Hi) as Hb2.
    assert (Hi0 : target_modules (self st) !! i = Some p).
    { rewrite <- S1. exact Hi. }
    pose proof (Hd1 i p Hi0) as Hb1. rewrite S1, Hb1 in Hb2.
    now injection Hb2.
  - now apply Hout2.
Qed.

(** [X2] From a well-formed state, [binarize_weights()] and
    [restore_weights()] each return, leave a well-formed state, and keep
    the size of every parameter. *)
Theorem well_formed_kept (st : State F) :
  well_formed st = true ->
  (exists st', binarize_weights st = (st', Ok tt) /\
               well_formed st' = true /\
               forall p, size (data st' p) = size (data st p)) /\
  (exists st', restore_weights st = (st', Ok tt) /\
               well_formed st' = true /\
               forall p, size (data st' p) = size (data st p)).
Proof.
  intros Hwf. apply well_formed_Inv in Hwf. split.
  - destruct Hwf as [Hnd HA].
    destruct (center_and_clamp_runs st HA) as (st1 & R1 & S1 & Z1 & A1).
    destruct (_save_params_runs st1 A1) as (st2 & R2 & D2 & T2 & _ & A2).
    destruct (_binarize_weights_runs st2 A2) as (st3 & R3 & S3 & Z3 & A3).
    exists st3. split; [unfold binarize_weights, bind; now rewrite R1, R2|].
    split.
    + apply well_formed_Inv. split; [|exact A3].
      rewrite S3, T2, S1. exact Hnd.
    + intros p. now rewrite Z3, D2, Z1.
  - destruct (restore_weights_ok st Hwf) as (st4 & R4 & S4 & Hd & Hout & I4).
    exists st4. split; [exact R4|]. split; [now apply well_formed_Inv|].
    intros p.
    destruct (in_dec Nat.eq_dec p (target_modules (self st))) as [Hin | Hno].
    + apply list_elem_of_In, list_elem_of_lookup in Hin as [i Hi].
      pose proof (Hd i p Hi) as Hb.
      destruct Hwf as [_ HA]. now destruct (al_sizes st HA i p _ Hi Hb).
    + now rewrite Hout.
Qed.

(** [X3] Whatever the state, and whether the call returns or raises:
    [binarize_weights()] keeps [target_modules], [num_of_params] and the
    number of shadow buffers; [restore_weights()] keeps the whole object,
    shadow buffers included; [_save_params] writes no parameter. *)
Theorem attributes_fixed (st : State F) :
  same_attributes st (fst (binarize_weights st)) /\
  self (fst (restore_weights st)) = self st /\
  data (fst (_save_params st)) = data st.
Proof.
  split; [|split].
  - assert (H : respects same_attributes binarize_weights).
    { unfold binarize_weights.
      apply (respects_bind _ same_attributes_trans).
      { apply same_self_attributes, center_and_clamp_same_self. }
      intros _. apply (respects_bind _ same_attributes_trans).
      { apply _save_params_same_attributes. }
      intros _. apply same_self_attributes, _binarize_weights_same_self. }
    apply H.
  - apply restore_weights_same_self.
  - apply _save_params_same_data.
Qed.

(** [X4] A binarizer constructed on a model without convolution or
    linear layer tracks nothing: any number of cycles returns and leaves
    the state exactly as construction left it, with the parameters the
    model had. *)
Theorem nothing_tracked (model : list Module_) (flag : bool) (st : State F)
        (k : nat) :
  eligible_weights model = [] ->
  cycles k (fst (__init__ model flag st)) = (fst (__init__ model flag st), Ok tt)
  /\ data (fst (__init__ model flag st)) = data st.
Proof.
  intros H. rewrite init_spec. unfold tracked. rewrite H. simpl.
  rewrite andb_false_r. simpl. split; [|reflexivity].
  induction k as [|k IH]; [reflexivity|].
  simpl. unfold bind at 1. rewrite IH. reflexivity.
Qed.

Lemma cycles_ok (k : nat) (st : State F) :
  Inv st ->
  exists st', cycles k st = (st', Ok tt) /\ Inv st' /\
    target_modules (self st') = target_modules (self st) /\
    forall p, size (data st' p) = size (data st p).
Proof.
  intros HI. induction k as [|k IH].
  - exists st. split; [reflexivity|]. auto.
  - destruct IH as (st0 & R0 & I0 & T0 & Z0).
    destruct (center_and_clamp_ok st0 I0) as (st1 & R1 & S1 & _ & _ & I1).
    pose proof I0 as [_ A0].
    destruct (center_and_clamp_runs st0 A0) as (st1' & R1' & _ & Z1 & _).
    rewrite R1 in R1'. injection R1' as <-.
    destruct (_save_params_ok st1 I1) as (st2 & R2 & D2 & T2 & _ & I2).
    pose proof I2 as [_ A2].
    destruct (_binarize_weights_ok st2 I2) as (st3 & R3 & S3 & _ & _ & I3).
    destruct (_binarize_weights_runs st2 A2) as (st3' & R3' & _ & Z3 & _).
    rewrite R3 in R3'. injection R3' as <-.
    destruct (restore_weights_ok st3 I3) as (st4 & R4 & S4 & Hd & Hout & I4).
    exists st4. split.
    { simpl. unfold bind at 1. rewrite R0. unfold bind at 1.
      unfold binarize_weights, bind. now rewrite R1, R2, R3. }
    split; [exact I4|]. split; [congruence|].
    intros p. transitivity (size (data st3 p)).
    + destruct (in_dec Nat.eq_dec p (target_modules (self st3))) as [Hin | Hno].
      * apply list_elem_of_In, list_elem_of_lookup in Hin as [i Hi].
        pose proof (Hd i p Hi) as Hb.
        destruct I3 as [_ A3]. now destruct (al_sizes st3 A3 i p _ Hi Hb).
      * now rewrite Hout.
    + now rewrite Z3, D2, Z1.
Qed.

(** [X5] On a model whose eligible weights are distinct, each of rank 2
    or 4 with a first axis that is not empty, construction (with either
    value of [ignore_first_last]) gives a well-formed binarizer, and any
    number of [binarize_weights(); restore_weights()] cycles then
    returns, keeps it well-formed, and keeps the tracked list and the
    size of every parameter. *)
Theorem constructed_runs (model : list Module_) (flag : bool) (st : State F)
        (k : nat) :
  NoDup (eligible_weights model) ->
  (forall m, In m (eligible_weights model) -> supported (data st m) = true) ->
  exists st1 st',
    __init__ model flag st = (st1, Ok tt) /\
    well_formed st1 = true /\
    cycles k st1 = (st', Ok tt) /\
    well_formed st' = true /\
    target_modules (self st') = target_modules (self st1) /\
    forall p, size (data st' p) = size (data st p).
Proof.
  intros Hnd Hsup.
  pose proof (init_well_formed model flag st Hnd Hsup) as Hwf.
  pose proof (init_spec model flag st) as Hinit.
  set (st1 := fst (__init__ model flag st)) in *.
  destruct (cycles_ok k st1) as (st' & R & I' & T' & Z');
    [now apply well_formed_Inv|].
  exists st1, st'. split; [unfold st1; now rewrite Hinit|].
  split; [exact Hwf|]. split; [exact R|].
  split; [now apply well_formed_Inv|]. split; [exact T'|].
  intros p. rewrite Z'. unfold st1. now rewrite Hinit.
Qed.

(** ** Weights the loops cannot handle *)

Lemma center_loop_low_rank (l : list ParamId) (m : ParamId) :
  In m l ->
  forall st, dim (data st m) < 2 ->
  exists st',
    for_each l center_body st = (st', Raise IndexError) /\
    self st' = self st /\ data st' m = data st m.
Proof.
  induction l as [|x l IH]; intros Hin st Hd; [destruct Hin|].
  simpl. unfold bind.
  pose proof (center_body_updates x st) as H.
  destruct (le_lt_dec 2 (dim (data st x))) as [Hx | Hx].
  - destruct (center_clamp_ok _ Hx) as (v & Hv & Hsz & _).
    rewrite Hv in H. destruct H as (st1 & Hrun & Hself & Hdata).
    rewrite Hrun.
    assert (Hne : m <> x) by (intros ->; lia).
    destruct Hin as [Hin | Hin]; [congruence|].
    assert (Hm : data st1 m = data st m).
    { rewrite Hdata. destruct (decide (m = x)); [contradiction | reflexivity]. }
    destruct (IH Hin st1) as (st' & Hrun' & Hself' & Hdata').
    { now rewrite Hm. }
    exists st'. split; [exact Hrun'|]. split; congruence.
  - assert (E : center_clamp (data st x) = Raise IndexError).
    { unfold center_clamp, mean. now rewrite reduce_raises by lia. }
    rewrite E in H. rewrite H. exists st. auto.
Qed.

(** [X6] When some tracked parameter has fewer than two axes,
    [binarize_weights()] raises [IndexError] in its centering loop: the
    object is unchanged (nothing is saved, nothing binarized) and that
    parameter holds its value. *)
Theorem low_rank_raises (st : State F) (m : ParamId) :
  In m (target_modules (self st)) ->
  dim (data st m) < 2 ->
  exists st',
    binarize_weights st = (st', Raise IndexError) /\
    self st' = self st /\
    data st' m = data st m.
Proof.
  intros Hin Hd. unfold binarize_weights. unfold bind at 1.
  rewrite center_and_clamp_unfold.
  destruct (center_loop_low_rank _ m Hin st Hd) as (st' & -> & Hs & Hm).
  exists st'. auto.
Qed.

Lemma getitem0_empty (d : Tensor F) :
  hd 0 (size d) = 0 -> getitem0 d = Raise IndexError.
Proof.
  unfold getitem0. destruct (size d) as [|n s]; [reflexivity|].
  simpl. intros ->. reflexivity.
Qed.

Lemma binarize_body_empty (mean : option (Tensor F)) (m : ParamId) (st : State F) :
  hd 0 (size (data st m)) = 0 ->
  binarize_body mean m st = (st, Raise IndexError).
Proof.
  intros H. unfold binarize_body, bind, get_data, lift. simpl.
  now rewrite getitem0_empty.
Qed.

Lemma binarize_body_other (mean : option (Tensor F)) (x : ParamId) (st st1 : State F)
      (r : outcome (option (Tensor F))) (p : ParamId) :
  binarize_body mean x st = (st1, r) -> p <> x -> data st1 p = data st p.
Proof.
  unfold binarize_body, bind, get_data, lift, set_data, ret, raise. simpl.
  destruct (getitem0 (data st x)) as [d0|e]; simpl;
    [|intros H; now injection H as <- _].
  destruct (scale (data st x) (nelement d0)) as [a|e]; simpl;
    [|intros H; now injection H as <- _].
  destruct (match a with Some v => Some v | None => mean end) as [mv|]; simpl;
    [|intros H; now injection H as <- _].
  destruct (mul (sign (data st x)) mv) as [v|e]; simpl;
    [|intros H; now injection H as <- _].
  intros H Hp. injection H as <- _. simpl.
  destruct (decide (p = x)); [contradiction | reflexivity].
Qed.

Lemma binarize_loop_empty (l : list ParamId) (m : ParamId) :
  In m l ->
  forall mean st, hd 0 (size (data st m)) = 0 ->
  raises (snd (for_with l binarize_body mean st)).
Proof.
  induction l as [|x l IH]; intros Hin mean st Hz; [destruct Hin|].
  simpl. unfold bind.
  destruct (decide (x = m)) as [->|Hne].
  - rewrite binarize_body_empty by exact Hz. simpl. now exists IndexError.
  - destruct (binarize_body mean x st) as [st1 [v|e]] eqn:E.
    + destruct Hin as [Hx | Hin]; [contradiction|].
      apply (IH Hin). erewrite binarize_body_other; eauto.
    + simpl. now exists e.
Qed.

(** [X7] When some tracked parameter has an empty first axis (no output
    channel or unit), [binarize_weights()] raises, and what it raises is
    not [ConfigurationError]. *)
Theorem empty_first_axis_raises (st : State F) (m : ParamId) :
  In m (target_modules (self st)) ->
  hd 0 (size (data st m)) = 0 ->
  raises_in binarize_weights st /\
  snd (binarize_weights st) <> Raise ConfigurationError.
Proof.
  intros Hin Hz. split.
  - assert (Hc : respects (calm (target_modules (self st)))
                          (center_and_clamp >> _save_params)).
    { apply (respects_bind _ (calm_trans _)); [apply center_and_clamp_calm|].
      intros _. apply _save_params_calm. }
    assert (Hb : binarize_weights st =
                 bind (center_and_clamp >> _save_params)
                      (fun _ => _binarize_weights) st).
    { unfold binarize_weights. now rewrite bind_assoc. }
    specialize (Hc st). unfold raises_in. rewrite Hb. unfold bind at 1.
    destruct ((center_and_clamp >> _save_params) st) as [st1 [[]|e]];
      simpl in Hc.
    + destruct Hc as [Hc _]. destruct (Hc eq_refl) as (HT1 & _ & Hsz).
      rewrite _binarize_weights_unfold.
      destruct (binarize_loop_empty (target_modules (self st1)) m) with
        (mean := @None (Tensor F)) (st := st1) as [e He].
      { now rewrite HT1. }
      { now rewrite Hsz. }
      destruct (for_with _ _ _ _) as [st' [v|e']]; simpl in *;
        [discriminate|]. now exists e'.
    + simpl. now exists e.
  - apply (binarize_weights_frame (target_modules (self st)) st).
Qed.

Lemma copy__incompatible (dst src : Tensor F) :
  broadcast_shapes (size dst) (size src) <> Some (size dst) ->
  copy_ dst src = Raise RuntimeError.
Proof.
  intros H. unfold copy_. destruct (decide (size dst = size src)) as [E|_].
  - exfalso. apply H. rewrite <- E. apply broadcast_shapes_expands, expands_refl.
  - destruct (broadcast_shapes _ _) as [r|]; [|reflexivity].
    destruct (decide (r = size dst)) as [->|_]; [|reflexivity].
    now exfalso.
Qed.

Lemma save_loop_mismatch (n : nat) :
  forall a st i m b,
  (forall j, a <= j < a + n ->
     is_Some (target_modules (self st) !! j) /\
     is_Some (saved_params (self st) !! j)) ->
  a <= i < a + n ->
  target_modules (self st) !! i = Some m ->
  saved_params (self st) !! i = Some b ->
  broadcast_shapes (size b) (size (data st m)) <> Some (size b) ->
  snd (for_each (seq a n) save_body st) = Raise RuntimeError.
Proof.
  induction n as [|n IH]; intros a st i m b Hall Hi Hm Hb Hbad; [lia|].
  simpl. unfold bind.
  destruct (Hall a) as [[ma Hma] [ba Hba]]; [lia|].
  destruct (copy_ ba (data st ma)) as [v|e] eqn:E.
  - assert (Hrun : save_body a st =
             (mkState (data st)
                (mkSelf (<[a:=v]> (saved_params (self st)))
                   (target_modules (self st)) (num_of_params (self st))),
              Ok tt)).
    { unfold save_body, bind, get_saved_params, get_target_modules, getitem,
        get_data, lift, set_saved_params, ret. simpl.
      rewrite Hba. simpl. rewrite Hma. simpl. now rewrite E. }
    rewrite Hrun.
    destruct (decide (i = a)) as [->|Hne].
    + exfalso. rewrite Hm in Hma. injection Hma as <-.
      rewrite Hb in Hba. injection Hba as <-.
      rewrite (copy__incompatible _ _ Hbad) in E. discriminate E.
    + apply (IH (S a) _ i m b); simpl; auto; try lia.
      * intros j Hj. destruct (Hall j) as [H1 H2]; [lia|]. split; [exact H1|].
        rewrite list_lookup_insert_ne by lia. exact H2.
      * rewrite list_lookup_insert_ne by lia. exact Hb.
  - assert (Hrun : save_body a st = (st, Raise e)).
    { unfold save_body, bind, get_saved_params, get_target_modules, getitem,
        get_data, lift, set_saved_params, ret. simpl.
      rewrite Hba. simpl. rewrite Hma. simpl. now rewrite E. }
    rewrite Hrun. simpl. f_equal. now apply copy__exn in E.
Qed.

(** [X8] When some tracked parameter cannot be broadcast to the size of
    its shadow buffer (its size changed after construction),
    [_save_params] raises [RuntimeError]; it has written no
    parameter. *)
Theorem save_shape_mismatch (st : State F) (i : nat) (m : ParamId) (b : Tensor F) :
  length (saved_params (self st)) = length (target_modules (self st)) ->
  target_modules (self st) !! i = Some m ->
  saved_params (self st) !! i = Some b ->
  broadcast_shapes (size b) (size (data st m)) <> Some (size b) ->
  snd (_save_params st) = Raise RuntimeError /\
  data (fst (_save_params st)) = data st.
Proof.
  intros Hl Hm Hb Hbad. split.
  - rewrite _save_params_unfold.
    apply (save_loop_mismatch _ 0 st i m b); auto.
    + intros j Hj. split; apply lookup_lt_is_Some_2; lia.
    + apply lookup_lt_Some in Hb. lia.
  - apply _save_params_same_data.
Qed.

Lemma restore_clones (st1 : State F) (dt : ParamId -> Tensor F) :
  data st1 = dt ->
  saved_params (self st1) = map dt (target_modules (self st1)) ->
  num_of_params (self st1) = length (target_modules (self st1)) ->
  exists st2,
    restore_weights st1 = (st2, Ok tt) /\ self st2 = self st1 /\
    forall p, data st2 p = dt p.
Proof.
  intros Hd Hsv Hn.
  assert (Hs : forall i m, target_modules (self st1) !! i = Some m ->
                 saved_params (self st1) !! i = Some (dt m)).
  { intros i m Hm. rewrite Hsv.
    change (map dt) with (fmap (M:=list) dt).
    now rewrite list_lookup_fmap, Hm. }
  destruct (restore_loop_shared (num_of_params (self st1)) 0 st1)
    as (st2 & Hrun & Hself & Hin & Hout).
  { intros i Hi. rewrite Hn in Hi.
    destruct (lookup_lt_is_Some_2 (target_modules (self st1)) i) as [m Hm];
      [lia|].
    exists m, (dt m). split; [exact Hm|]. split; [now apply Hs|].
    now rewrite Hd. }
  { intros i j m Hi Hj. now rewrite (Hs i m Hi), (Hs j m Hj). }
  exists st2. rewrite restore_weights_unfold.
  split; [exact Hrun|]. split; [exact Hself|].
  intros p.
  destruct (in_dec Nat.eq_dec p (target_modules (self st1))) as [Hp | Hp].
  - apply list_elem_of_In, list_elem_of_lookup in Hp as [i Hi].
    apply (Hin i p (dt p)); [|exact Hi | now apply Hs].
    { apply lookup_lt_Some in Hi. rewrite Hn.
      split; [apply Nat.le_0_l | exact Hi]. }
  - rewrite Hout; [now rewrite Hd|].
    intros i _ Hc. apply Hp. eapply lookup_In, Hc.
Qed.

(** [X9] [restore_weights()] called right after construction, before any
    [binarize_weights()], returns and changes nothing: the shadow buffers
    are the clones construction took.  This holds for every model and
    both values of [ignore_first_last], shared or unsupported weights
    included. *)
Theorem restore_after_init (model : list Module_) (flag : bool) (st : State F) :
  exists st1 st2,
    __init__ model flag st = (st1, Ok tt) /\
    restore_weights st1 = (st2, Ok tt) /\
    self st2 = self st1 /\
    forall p, data st2 p = data st p.
Proof.
  pose proof (init_spec model flag st) as Hinit.
  destruct (restore_clones (fst (__init__ model flag st)) (data st))
    as (st2 & Hrun & Hself & Hd); try (rewrite Hinit; reflexivity).
  exists (fst (__init__ model flag st)), st2.
  split; [now rewrite Hinit|]. auto.
Qed.

(** ** [update_weight_gradients] *)

(** [X14] [update_weight_gradients()] returns and changes nothing,
    whatever the state: no gradient and no parameter is written. *)
Theorem update_weight_gradients_noop (st : State F) :
  update_weight_gradients st = (st, Ok tt).
Proof.
  unfold update_weight_gradients, bind, get_target_modules. simpl.
  induction (target_modules (self st)) as [|m l IH]; [reflexivity|].
  simpl. unfold bind, get_data, ret. simpl. exact IH.
Qed.

End WithArith.

(** ** The zero of the two arithmetics *)

(** *** The zero of binary32 *)

Lemma digits2_pos_le (m : positive) :
  (2 ^ (Zpos (digits2_pos m) - 1) <= Zpos m)%Z.
Proof.
  induction m as [m IH | m IH |]; cbn [digits2_pos].
  - rewrite Pos2Z.inj_succ.
    replace (Z.succ (Zpos (digits2_pos m)) - 1)%Z
      with (Z.succ (Zpos (digits2_pos m) - 1))%Z by lia.
    rewrite Z.pow_succ_r by lia. lia.
  - rewrite Pos2Z.inj_succ.
    replace (Z.succ (Zpos (digits2_pos m)) - 1)%Z
      with (Z.succ (Zpos (digits2_pos m) - 1))%Z by lia.
    rewrite Z.pow_succ_r by lia. lia.
  - simpl. lia.
Qed.

Lemma shr_1_m (r : shr_record) :
  (0 <= shr_m r)%Z -> shr_m (shr_1 r) = (shr_m r / 2)%Z.
Proof.
  destruct r as [m r s]. cbn [shr_m]. intros H. unfold shr_1.
  destruct m as [|[p|p|]|p]; cbn [shr_m]; try lia.
  all: try reflexivity.
  - apply Z.div_unique with 1%Z; lia.
  - apply Z.div_unique with 0%Z; lia.
Qed.

Lemma shr_iter_m (k : positive) :
  forall r, (0 <= shr_m r)%Z ->
  (0 <= shr_m (SpecFloat.iter_pos shr_1 k r))%Z /\
  shr_m (SpecFloat.iter_pos shr_1 k r) = (shr_m r / 2 ^ Zpos k)%Z.
Proof.
  induction k as [k IH | k IH |]; intros r Hr; cbn [SpecFloat.iter_pos].
  - assert (H1 : (0 <= shr_m (shr_1 r))%Z).
    { rewrite shr_1_m by exact Hr. apply Z.div_pos; lia. }
    destruct (IH _ H1) as [H2 E2]. destruct (IH _ H2) as [H3 E3].
    split; [exact H3|]. rewrite E3, E2, shr_1_m by exact Hr.
    rewrite !Z.div_div by lia. f_equal.
    assert (E : (2 ^ Zpos k~1 = 2 * 2 ^ Zpos k * 2 ^ Zpos k)%Z).
    { rewrite <- Z.mul_assoc, <- Z.pow_add_r, <- Z.pow_succ_r by lia.
      f_equal. lia. }
    lia.
  - destruct (IH _ Hr) as [H2 E2]. destruct (IH _ H2) as [H3 E3].
    split; [exact H3|]. rewrite E3, E2.
    rewrite !Z.div_div by lia. f_equal.
    assert (E : (2 ^ Zpos k~0 = 2 ^ Zpos k * 2 ^ Zpos k)%Z).
    { rewrite <- Z.pow_add_r by lia. f_equal. lia. }
    lia.
  - rewrite shr_1_m by exact Hr.
    split; [apply Z.div_pos; lia | reflexivity].
Qed.

(** Shifting a mantissa to its precision leaves a positive mantissa. *)
Lemma shr_fexp_pos (m : positive) (e : Z) (l : location) :
  (-149 <= e)%Z ->
  exists m', shr_m (fst (shr_fexp 24 128 (Zpos m) e l)) = Zpos m' /\
             (-149 <= snd (shr_fexp 24 128 (Zpos m) e l))%Z.
Proof.
  intros He. unfold shr_fexp, shr, fexp, emin. cbn [Zdigits2].
  set (d := Zpos (digits2_pos m)).
  destruct (Z.max (d + e - 24) (3 - 128 - 24) - e)%Z as [|k|k] eqn:E;
    cbn [fst snd].
  - exists m. split; [destruct l as [|[]]; reflexivity | exact He].
  - assert (Hk : (Zpos k = d - 24)%Z) by lia.
    assert (Hm : (0 <= shr_m (shr_record_of_loc (Zpos m) l))%Z)
      by (destruct l as [|[]]; cbn; lia).
    assert (Hv : shr_m (shr_record_of_loc (Zpos m) l) = Zpos m)
      by (destruct l as [|[]]; reflexivity).
    destruct (shr_iter_m k _ Hm) as [_ Hs]. rewrite Hv in Hs.
    pose proof (digits2_pos_le m) as Hd. fold d in Hd.
    assert (Hq : (0 < Zpos m / 2 ^ Zpos k)%Z).
    { apply Z.div_str_pos. split; [lia|].
      eapply Z.le_trans; [|exact Hd]. apply Z.pow_le_mono_r; lia. }
    destruct (Zpos m / 2 ^ Zpos k)%Z as [|q|q] eqn:Eq; try lia.
    exists q. split; [exact Hs | lia].
  - exists m. split; [destruct l as [|[]]; reflexivity | exact He].
Qed.

Lemma round_nearest_even_pos (m : positive) (l : location) :
  exists m', round_nearest_even (Zpos m) l = Zpos m'.
Proof.
  unfold round_nearest_even.
  destruct l as [|[]]; try destruct (Z.even (Zpos m)); eexists; reflexivity.
Qed.

Lemma binary_round_aux_pos (m : positive) (e : Z) (l : location) :
  (-149 <= e)%Z ->
  (exists m' e', binary_round_aux 24 128 false (Zpos m) e l
                 = S754_finite false m' e') \/
  binary_round_aux 24 128 false (Zpos m) e l = S754_infinity false.
Proof.
  intros He. unfold binary_round_aux.
  destruct (shr_fexp_pos m e l He) as (m1 & H1 & He1).
  destruct (shr_fexp 24 128 (Zpos m) e l) as [mrs' e'].
  cbn [fst snd] in H1, He1. rewrite H1.
  destruct (round_nearest_even_pos m1 (loc_of_shr_record mrs')) as (m2 & ->).
  destruct (shr_fexp_pos m2 e' loc_Exact He1) as (m3 & H3 & _).
  destruct (shr_fexp 24 128 (Zpos m2) e' loc_Exact) as [mrs'' e''].
  cbn [fst] in H3. rewrite H3.
  destruct (e'' <=? 128 - 24)%Z; [left; eauto | now right].
Qed.

Lemma b32_of_pos (p : positive) :
  (exists m e, b32_of_Z (Zpos p) = S754_finite false m e) \/
  b32_of_Z (Zpos p) = S754_infinity false.
Proof.
  unfold b32_of_Z, binary_normalize, binary_round, shl_align, fexp, emin.
  set (d := Zpos (digits2_pos p)).
  destruct (Z.max (d + 0 - 24) (3 - 128 - 24) - 0)%Z as [|k|k] eqn:E.
  - apply binary_round_aux_pos. lia.
  - apply binary_round_aux_pos. lia.
  - apply binary_round_aux_pos. lia.
Qed.

Lemma b32_is_zero (x : spec_float) :
  is_zero x <-> exists s, x = S754_zero s.
Proof.
  unfold is_zero. cbn [feqb of_Z binary32].
  change (b32_of_Z 0) with (S754_zero false).
  destruct x as [s|s| |s m e]; cbn; split;
    try discriminate; try (intros [s' H]; discriminate H); eauto.
  - destruct s; discriminate.
  - destruct s; discriminate.
Qed.

Lemma b32_add_zeros (x y : spec_float) :
  (exists s, x = S754_zero s) -> (exists s, y = S754_zero s) ->
  exists s, SFadd 24 128 x y = S754_zero s.
Proof.
  intros [s ->] [s' ->]. destruct s, s'; cbn; eauto.
Qed.

Lemma b32_sum_zeros (l : list spec_float) (a : spec_float) :
  (exists s, a = S754_zero s) ->
  Forall (fun x => exists s, x = S754_zero s) l ->
  exists s, fold_left (SFadd 24 128) l a = S754_zero s.
Proof.
  revert a. induction l as [|x l IH]; intros a Ha Hl; cbn; [exact Ha|].
  apply Forall_cons in Hl as [Hx Hl].
  apply IH; [now apply b32_add_zeros | exact Hl].
Qed.

Lemma binary32_zero_laws : ZeroLaws spec_float.
Proof.
  split.
  - intros l Hl. apply b32_is_zero. cbn [fnorm1 binary32].
    unfold b32_norm1, b32_sum. apply b32_sum_zeros; [now exists false|].
    apply Forall_forall. intros y Hy.
    apply list_elem_of_In, in_map_iff in Hy as (x & <- & Hx).
    rewrite Forall_forall in Hl.
    apply list_elem_of_In, Hl, b32_is_zero in Hx as [s ->]. now exists false.
  - intros l Hl. apply b32_is_zero. cbn [fsum binary32].
    unfold b32_sum. apply b32_sum_zeros; [now exists false|].
    eapply Forall_impl; [exact Hl|]. intros x Hx. now apply b32_is_zero.
  - intros x n Hx Hn. apply b32_is_zero. apply b32_is_zero in Hx as [s ->].
    unfold of_nat. cbn [fdiv of_Z binary32].
    destruct (Z.of_nat n) as [|p|p] eqn:E; try lia.
    destruct (b32_of_pos p) as [(m & e & ->) | ->]; cbn; eauto.
  - intros x y Hy. apply b32_is_zero. apply b32_is_zero in Hy as [s ->].
    cbn [fmul binary32].
    destruct (b32_sgn_cases x) as [-> | [-> | ->]]; cbn; eauto.
Qed.

(** *** The zero of the rationals *)

Lemma Q_is_zero (x : Q) : is_zero x <-> (x == 0)%Q.
Proof. unfold is_zero. cbn [feqb of_Z Q_arith]. apply Qeq_bool_iff. Qed.

Lemma Qsum_zeros (l : list Q) :
  Forall (fun x => x == 0)%Q l -> (Qsum l == 0)%Q.
Proof.
  induction 1 as [|x l Hx _ IH]; cbn; [reflexivity|]. rewrite Hx, IH. ring.
Qed.

Lemma Q_zero_laws : ZeroLaws Q.
Proof.
  split.
  - intros l Hl. apply Q_is_zero. cbn [fnorm1 Q_arith]. apply Qsum_zeros.
    apply Forall_forall. intros y Hy.
    apply list_elem_of_In, in_map_iff in Hy as (x & <- & Hx).
    rewrite Forall_forall in Hl.
    apply list_elem_of_In, Hl, Q_is_zero in Hx. rewrite Hx. reflexivity.
  - intros l Hl. apply Q_is_zero. cbn [fsum Q_arith]. apply Qsum_zeros.
    eapply Forall_impl; [exact Hl|]. intros x Hx. now apply Q_is_zero.
  - intros x n Hx _. apply Q_is_zero. apply Q_is_zero in Hx.
    cbn [fdiv Q_arith]. rewrite Hx. unfold Qdiv. ring.
  - intros x y Hy. apply Q_is_zero. apply Q_is_zero in Hy.
    cbn [fmul Q_arith]. rewrite Hy. ring.
Qed.

(** ** Examples *)

Lemma exclusion_policy_witness :
  exists st',
    __init__ Net true (blank (tensor1 ([] : list Q))) = (st', Ok tt) /\
    eligible_weights Net = [0; 4; 8; 10] /\
    target_modules (self st') = [4; 8].
Proof.
  destruct (exclusion_policy Net (blank (tensor1 ([] : list Q))))
    as (st' & Hrun & _ & _ & _ & _ & _ & H4 & _).
  exists st'. split; [exact Hrun|]. split; [reflexivity|].
  destruct (H4 eq_refl) as (a & b & c & d & Hel & Htm).
  rewrite Htm. injection Hel as _ <- <- _. reflexivity.
Defined.

Lemma init_no_eligible_witness :
  eligible_weights [OtherModule; BatchNorm (Some 0) (Some 1)] = [] /\
  exists st',
    __init__ [OtherModule; BatchNorm (Some 0) (Some 1)] true
             (blank (tensor1 ([] : list Q))) = (st', Ok tt) /\
    data st' = data (blank (tensor1 ([] : list Q))) /\
    saved_params (self st') = [] /\
    target_modules (self st') = [] /\
    num_of_params (self st') = 0.
Proof.
  split; [reflexivity|].
  apply (init_no_eligible [OtherModule; BatchNorm (Some 0) (Some 1)] true).
  reflexivity.
Defined.

(** [C4], as stated, fails: on a model of a container and a
    batch-normalization layer, without a convolution or linear layer,
    construction raises nothing. *)
Lemma init_no_eligible_counterexample :
  eligible_weights [OtherModule; BatchNorm (Some 0) (Some 1)] = [] /\
  ~ raises_in (__init__ [OtherModule; BatchNorm (Some 0) (Some 1)] true)
              (blank (tensor1 ([] : list Q))).
Proof.
  split; [reflexivity|]. intros [e H]. discriminate H.
Qed.

(** In binary32, with a weight shared by the two tracked layers: every
    cycle changes the weight again, and the round trip holds. *)
Lemma round_trip_witness :
  aligned tied_state = true /\
  exists st0 st1 st2 st3 st4,
    cycles 1 tied_state = (st0, Ok tt) /\
    center_and_clamp st0 = (st1, Ok tt) /\
    _save_params st1 = (st2, Ok tt) /\
    binarize_weights st0 = (st3, Ok tt) /\
    restore_weights st3 = (st4, Ok tt) /\
    cycles 2 tied_state = (st4, Ok tt) /\
    target_modules (self st4) = target_modules (self tied_state) /\
    forall i m, target_modules (self tied_state) !! i = Some m ->
      saved_params (self st2) !! i = Some (data st1 m) /\
      data st4 m = data st1 m /\
      saved_params (self st2) !! i = Some (data st4 m) /\
      saved_params (self st4) !! i = Some (data st4 m).
Proof.
  split; [reflexivity|]. apply (round_trip tied_state 1). reflexivity.
Defined.

Lemma binarized_values_witness :
  well_formed float_state = true /\
  exists st',
    binarize_weights float_state = (st', Ok tt) /\
    forall i m, target_modules (self float_state) !! i = Some m ->
      exists w,
        saved_params (self st') !! i = Some w /\
        size (data st' m) = size w /\
        forall idx, in_range (size w) idx ->
          at_ (data st' m) idx =
            fmul (sgn (at_ w idx)) (scale_spec w (hd 0 idx)) /\
          (flt (of_Z 0) (at_ w idx) = true ->
           at_ (data st' m) idx = fmul (of_Z 1) (scale_spec w (hd 0 idx))) /\
          (flt (of_Z 0) (at_ w idx) = false ->
           flt (at_ w idx) (of_Z 0) = true ->
           at_ (data st' m) idx =
             fmul (of_Z (-1)) (scale_spec w (hd 0 idx))) /\
          (flt (of_Z 0) (at_ w idx) = false ->
           flt (at_ w idx) (of_Z 0) = false ->
           at_ (data st' m) idx = fmul (of_Z 0) (scale_spec w (hd 0 idx))).
Proof.
  split; [reflexivity|]. apply (binarized_values float_state). reflexivity.
Defined.

(** [C2], as stated, fails when two tracked layers share their weight
    [[3, 0, 0], [1, 0, -1]]: [binarize_weights()] returns, both shadow
    buffers hold the same saved value [w], and entry (1, 0) of the
    parameter is not [sgn w * scale] of [w].  In exact arithmetic the
    entry is 4/9 and [sgn w * scale] is 2/3; in binary32 they differ
    likewise.  It fails also for a weight tracked once, in binary32:
    with an infinite entry in a convolution weight, the saved value has
    an entry that is 0 in an output channel whose scale is NaN, and the
    binarized entry is NaN, not 0. *)
Lemma binarized_values_counterexample :
  target_modules (self tied_exact_state) = [1; 1] /\
  target_modules (self tied_state) = [1; 1] /\
  (exists st' w,
     binarize_weights tied_exact_state = (st', Ok tt) /\
     saved_params (self st') !! 0 = Some w /\
     saved_params (self st') !! 1 = Some w /\
     in_range (size w) [1; 0] /\
     (at_ (data st' 1%nat) [1; 0]%nat == 4 # 9)%Q /\
     (sgn (at_ w [1; 0]%nat) * scale_spec w 1 == 2 # 3)%Q) /\
  (exists st' w,
     binarize_weights tied_state = (st', Ok tt) /\
     saved_params (self st') !! 0 = Some w /\
     saved_params (self st') !! 1 = Some w /\
     in_range (size w) [1; 0] /\
     at_ (data st' 1) [1; 0] <> fmul (sgn (at_ w [1; 0])) (scale_spec w 1)) /\
  (well_formed inf_state = true /\
   exists st' w,
     binarize_weights inf_state = (st', Ok tt) /\
     saved_params (self st') !! 0 = Some w /\
     in_range (size w) [0; 0; 0; 1] /\
     at_ w [0; 0; 0; 1] = S754_zero false /\
     at_ (data st' 1) [0; 0; 0; 1] = S754_nan).
Proof.
  split; [reflexivity|]. split; [reflexivity|]. split; [|split].
  - exists (fst (binarize_weights tied_exact_state)).
    eexists. split; [apply run_ok; reflexivity|].
    split; [reflexivity|]. split; [reflexivity|].
    split; [simpl; lia|]. split; vm_compute; reflexivity.
  - exists (fst (binarize_weights tied_state)).
    eexists. split; [apply run_ok; reflexivity|].
    split; [reflexivity|]. split; [reflexivity|].
    split; [simpl; lia|]. vm_compute. discriminate.
  - split; [reflexivity|].
    exists (fst (binarize_weights inf_state)).
    eexists. split; [apply run_ok; reflexivity|].
    split; [reflexivity|]. split; [simpl; lia|]. split; reflexivity.
Qed.

Lemma saved_is_centered_clamped_witness :
  well_formed float_state = true /\
  exists st1 st2 st3,
    center_and_clamp float_state = (st1, Ok tt) /\
    _save_params st1 = (st2, Ok tt) /\
    binarize_weights float_state = (st3, Ok tt) /\
    forall i m, target_modules (self float_state) !! i = Some m ->
      exists w,
        saved_params (self st2) !! i = Some w /\
        saved_params (self st3) !! i = Some w /\
        w = data st1 m /\
        size w = size (data float_state m) /\
        forall idx, in_range (size w) idx ->
          at_ w idx = center_clamp_spec (data float_state m) idx /\
          (at_ w idx = of_Z (-1) \/ at_ w idx = of_Z 1 \/
           (at_ w idx =
              fadd (at_ (data float_state m) idx)
                   (fmul (mean_spec (data float_state m) idx) (of_Z (-1))) /\
            flt (at_ w idx) (of_Z (-1)) = false /\
            flt (of_Z 1) (at_ w idx) = false)).
Proof.
  split; [reflexivity|].
  apply (saved_is_centered_clamped float_state). reflexivity.
Defined.

(** [C6], as stated, fails when two tracked layers share their weight
    [[3, 0, 0], [1, 0, -1]]: the weight is centered and clamped twice
    before it is saved, and entry (0, 1) of the shadow buffer is not the
    centered and clamped entry of the weight.  In exact arithmetic the
    buffer holds -2/3 where centering and clamping the weight gives -1;
    in binary32 they differ likewise. *)
Lemma saved_is_centered_clamped_counterexample :
  target_modules (self tied_exact_state) = [1; 1] /\
  target_modules (self tied_state) = [1; 1] /\
  (exists st2 w,
     (center_and_clamp >> _save_params) tied_exact_state = (st2, Ok tt) /\
     saved_params (self st2) !! 0 = Some w /\
     in_range (size w) [0; 1] /\
     (at_ w [0; 1]%nat == - (2 # 3))%Q /\
     (center_clamp_spec (data tied_exact_state 1%nat) [0; 1]%nat == -1)%Q) /\
  (exists st2 w,
     (center_and_clamp >> _save_params) tied_state = (st2, Ok tt) /\
     saved_params (self st2) !! 0 = Some w /\
     in_range (size w) [0; 1] /\
     at_ w [0; 1] <> center_clamp_spec (data tied_state 1) [0; 1]).
Proof.
  split; [reflexivity|]. split; [reflexivity|]. split.
  - exists (fst ((center_and_clamp >> _save_params) tied_exact_state)).
    eexists. split; [apply run_ok; reflexivity|].
    split; [reflexivity|]. split; [simpl; lia|].
    split; vm_compute; reflexivity.
  - exists (fst ((center_and_clamp >> _save_params) tied_state)).
    eexists. split; [apply run_ok; reflexivity|].
    split; [reflexivity|]. split; [simpl; lia|]. vm_compute. discriminate.
Qed.

(** In binary32 the sum of the row [[3e38, 3e38]] overflows: its mean is
    infinite, and the saved row is [[-1, -1]]. *)
Lemma mean_overflow_example :
  saved_params (self (fst (binarize_weights huge_state)))
  = [tensor2 2 [[f32 (-1); f32 (-1)]]].
Proof. vm_compute. reflexivity. Qed.



(** [C5], as stated, fails: with a rank-3 weight tracked after a rank-2
    one, [binarize_weights()] returns normally and the rank-3 weight has
    been multiplied by the scale of the rank-2 weight; with the rank-3
    weight tracked alone, the exception is [UnboundLocalError]. *)
Lemma unsupported_rank_counterexample :
  target_modules (self stale_state) = [0; 1] /\
  dim (data stale_state 1) = 3 /\
  ~ raises_in binarize_weights stale_state /\
  (at_ (data (fst (binarize_weights stale_state)) 1%nat) [0; 0; 0]%nat == 1 /\
   at_ (data (fst (binarize_weights stale_state)) 1%nat) [0; 0; 1]%nat == -1 /\
   at_ (data (fst (binarize_weights stale_state)) 1%nat) [0; 1; 0]%nat == 0 /\
   at_ (data (fst (binarize_weights stale_state)) 1%nat) [0; 1; 1]%nat == 0)%Q /\
  snd (binarize_weights rank3_state) = Raise UnboundLocalError.
Proof.
  split; [reflexivity|]. split; [reflexivity|]. split.
  { intros [e H]. vm_compute in H. discriminate H. }
  split; [|reflexivity].
  repeat split; vm_compute; reflexivity.
Qed.

Lemma unsupported_first_raises_witness :
  exists st' e,
    binarize_weights rank3_state = (st', Raise e) /\
    e <> ConfigurationError /\
    (e = IndexError \/ e = RuntimeError \/ e = UnboundLocalError) /\
    ((center_and_clamp >> _save_params) rank3_state = (st', Raise e) \/
     (center_and_clamp >> _save_params) rank3_state = (st', Ok tt)).
Proof.
  apply (unsupported_first_raises rank3_state 1 []).
  - reflexivity.
  - vm_compute. discriminate.
  - vm_compute. discriminate.
Defined.

Lemma cycle_centers_and_clamps_witness :
  well_formed float_state = true /\
  exists st',
    (binarize_weights >> restore_weights) float_state = (st', Ok tt) /\
    (forall p, ~ In p (target_modules (self float_state)) ->
       data st' p = data float_state p) /\
    forall m idx, In m (target_modules (self float_state)) ->
      size (data st' m) = size (data float_state m) /\
      (in_range (size (data float_state m)) idx ->
       at_ (data st' m) idx = center_clamp_spec (data float_state m) idx).
Proof.
  split; [reflexivity|].
  apply (cycle_centers_and_clamps float_state). reflexivity.
Defined.

Lemma untracked_untouched_witness :
  ~ In 0 (target_modules (self example_state)) /\
  data (fst (binarize_weights example_state)) 0 = data example_state 0 /\
  data (fst (restore_weights example_state)) 0 = data example_state 0.
Proof.
  assert (H : ~ In 0 (target_modules (self example_state))).
  { simpl. intros [H|[]]. discriminate H. }
  split; [exact H|]. apply (untracked_untouched example_state 0 H).
Defined.

Lemma restore_idempotent_witness :
  well_formed example_state = true /\
  exists st1 st2,
    restore_weights example_state = (st1, Ok tt) /\
    restore_weights st1 = (st2, Ok tt) /\
    self st2 = self st1 /\
    forall p, data st2 p = data st1 p.
Proof.
  split; [reflexivity|]. apply (restore_idempotent example_state). reflexivity.
Defined.

Lemma well_formed_kept_witness :
  well_formed example_state = true /\
  (exists st', binarize_weights example_state = (st', Ok tt) /\
               well_formed st' = true /\
               forall p, size (data st' p) = size (data example_state p)) /\
  (exists st', restore_weights example_state = (st', Ok tt) /\
               well_formed st' = true /\
               forall p, size (data st' p) = size (data example_state p)).
Proof.
  split; [reflexivity|]. apply (well_formed_kept example_state). reflexivity.
Defined.

Lemma nothing_tracked_witness :
  eligible_weights [OtherModule; BatchNorm (Some 0) (Some 1)] = [] /\
  cycles 3 (fst (__init__ [OtherModule; BatchNorm (Some 0) (Some 1)] true
                   (blank example_weight))) =
    (fst (__init__ [OtherModule; BatchNorm (Some 0) (Some 1)] true
            (blank example_weight)), Ok tt) /\
  data (fst (__init__ [OtherModule; BatchNorm (Some 0) (Some 1)] true
               (blank example_weight))) = data (blank example_weight).
Proof.
  split; [reflexivity|].
  apply (nothing_tracked [OtherModule; BatchNorm (Some 0) (Some 1)] true
           (blank example_weight) 3).
  reflexivity.
Defined.

Lemma constructed_runs_witness :
  NoDup (eligible_weights Net) /\
  (forall m, In m (eligible_weights Net) ->
     supported (data (blank example_weight) m) = true) /\
  exists st1 st',
    __init__ Net true (blank example_weight) = (st1, Ok tt) /\
    well_formed st1 = true /\
    cycles 2 st1 = (st', Ok tt) /\
    well_formed st' = true /\
    target_modules (self st') = target_modules (self st1) /\
    forall p, size (data st' p) = size (data (blank example_weight) p).
Proof.
  assert (H1 : NoDup (eligible_weights Net)) by (apply (bool_decide_unpack (NoDup _)); vm_compute; exact I).
  assert (H2 : forall m, In m (eligible_weights Net) ->
     supported (data (blank example_weight) m) = true) by (intros m _; reflexivity).
  split; [exact H1|]. split; [exact H2|].
  apply (constructed_runs Net true (blank example_weight) 2 H1 H2).
Defined.


Lemma low_rank_raises_witness :
  In 1 (target_modules (self rank1_state)) /\
  dim (data rank1_state 1) < 2 /\
  exists st',
    binarize_weights rank1_state = (st', Raise IndexError) /\
    self st' = self rank1_state /\
    data st' 1 = data rank1_state 1.
Proof.
  split; [now left|]. split; [vm_compute; lia|].
  apply (low_rank_raises rank1_state 1); [now left | vm_compute; lia].
Defined.

Lemma empty_first_axis_raises_witness :
  In 1 (target_modules (self empty_axis_state)) /\
  hd 0 (size (data empty_axis_state 1)) = 0 /\
  raises_in binarize_weights empty_axis_state /\
  snd (binarize_weights empty_axis_state) <> Raise ConfigurationError.
Proof.
  split; [now left|]. split; [reflexivity|].
  apply (empty_first_axis_raises empty_axis_state 1); [now left | reflexivity].
Defined.

Lemma save_shape_mismatch_witness :
  length (saved_params (self mismatch_state)) =
    length (target_modules (self mismatch_state)) /\
  target_modules (self mismatch_state) !! 0 = Some 0 /\
  saved_params (self mismatch_state) !! 0 = Some (tensor2 2 [[1; 2]]%Q) /\
  broadcast_shapes (size (tensor2 2 [[1; 2]]%Q)) (size (data mismatch_state 0))
    <> Some (size (tensor2 2 [[1; 2]]%Q)) /\
  snd (_save_params mismatch_state) = Raise RuntimeError /\
  data (fst (_save_params mismatch_state)) = data mismatch_state.
Proof.
  assert (H : broadcast_shapes (size (tensor2 2 [[1; 2]]%Q))
                (size (data mismatch_state 0))
              <> Some (size (tensor2 2 [[1; 2]]%Q)))
    by (vm_compute; discriminate).
  split; [reflexivity|]. split; [reflexivity|]. split; [reflexivity|].
  split; [exact H|].
  apply (save_shape_mismatch mismatch_state 0 0 (tensor2 2 [[1; 2]]%Q));
    [reflexivity | reflexivity | reflexivity | exact H].
Defined.

End BinarizerFacts.
(** * Properties of the activation *)

Module BinaryActivationFacts.
Import Torch BinaryActivation BinarizerSpec TorchFacts.

Section WithArith.
Context {F : Type} {AF : Arith F}.

(** [C9] [forward] returns a new tensor of the size of the input that
    holds its sign entry by entry: 1 where the input is positive, -1
    where it is negative, 0 where it is neither (zero, or a NaN); the
    context keeps the input, and no tensor that existed before the call
    has changed.  This holds in every arithmetic: the comparisons are
    those of the scalars. *)
Theorem forward_sign (ctx : Ctx) (input : Ref) (h : Heap F) :
  input < next h ->
  exists h' ctx' out,
    forward ctx input h = (h', ctx', out) /\
    out = next h /\
    saved_tensors ctx' = [input] /\
    size (cell h' out) = size (cell h input) /\
    (forall idx, in_range (size (cell h input)) idx ->
       at_ (cell h' out) idx = sgn (at_ (cell h input) idx) /\
       (flt (of_Z 0) (at_ (cell h input) idx) = true ->
        at_ (cell h' out) idx = of_Z 1) /\
       (flt (of_Z 0) (at_ (cell h input) idx) = false ->
        flt (at_ (cell h input) idx) (of_Z 0) = true ->
        at_ (cell h' out) idx = of_Z (-1)) /\
       (flt (of_Z 0) (at_ (cell h input) idx) = false ->
        flt (at_ (cell h input) idx) (of_Z 0) = false ->
        at_ (cell h' out) idx = of_Z 0)) /\
    (forall r, r < next h -> cell h' r = cell h r).
Proof.
  intros Hin. unfold forward, alloc, save_for_backward.
  eexists. eexists. eexists. split; [reflexivity|]. simpl.
  split; [reflexivity|]. split; [reflexivity|].
  case_decide; [|congruence].
  split; [reflexivity|]. split.
  - intros idx Hi. unfold sign. rewrite at_tmap by exact Hi.
    split; [reflexivity|]. unfold sgn.
    destruct (flt (of_Z 0) (at_ (cell h input) idx));
      destruct (flt (at_ (cell h input) idx) (of_Z 0));
      repeat split; intros; try reflexivity; discriminate.
  - intros r Hr. case_decide; [lia | reflexivity].
Qed.

(** [C10] [backward] returns a new tensor, distinct from the upstream
    gradient and from the saved input, that holds the upstream gradient
    entry by entry whatever the saved input holds; no tensor that
    existed before the call has changed. *)
Theorem backward_identity (ctx : Ctx) (input grad_output : Ref) (h : Heap F) :
  saved_tensors ctx = [input] ->
  input < next h -> grad_output < next h ->
  exists h' grad_input,
    backward ctx grad_output h = (h', Ok grad_input) /\
    grad_input = next h /\
    grad_input <> grad_output /\ grad_input <> input /\
    cell h' grad_input = cell h grad_output /\
    (forall idx, at_ (cell h' grad_input) idx = at_ (cell h grad_output) idx) /\
    (forall r, r < next h -> cell h' r = cell h r).
Proof.
  intros Hs Hi Hg. unfold backward, alloc, clone. rewrite Hs.
  eexists. eexists. split; [reflexivity|]. simpl.
  split; [reflexivity|]. split; [lia|]. split; [lia|].
  case_decide; [|congruence].
  split; [reflexivity|]. split; [reflexivity|].
  intros r Hr. case_decide; [lia | reflexivity].
Qed.

(** ** Composing the two calls *)

(** [X16] [backward], given the context [forward] left, returns: the
    gradient it returns is a new tensor (not the input, the output of
    [forward] or the upstream gradient) holding the upstream gradient,
    and the input and the output of [forward] are as they were. *)
Theorem forward_then_backward (ctx : Ctx) (input grad_output : Ref)
    (h : Heap F) :
  input < next h -> grad_output <= next h ->
  exists h1 ctx1 out h2 grad_input,
    forward ctx input h = (h1, ctx1, out) /\
    backward ctx1 grad_output h1 = (h2, Ok grad_input) /\
    grad_input <> out /\ grad_input <> input /\ grad_input <> grad_output /\
    cell h2 grad_input = cell h1 grad_output /\
    cell h2 out = cell h1 out /\
    cell h2 input = cell h input.
Proof.
  intros Hi Hg. unfold forward, backward, alloc, save_for_backward, clone.
  simpl. do 5 eexists. split; [reflexivity|]. split; [reflexivity|]. simpl.
  split; [lia|]. split; [lia|]. split; [lia|].
  repeat case_decide; try lia; repeat split; reflexivity.
Qed.

(** [forward] applied to its own output, in an arithmetic where the sign
    of a sign is the sign. *)
Lemma forward_of_forward (ctx ctx' : Ctx) (input : Ref) (h : Heap F) :
  (forall x : F, sgn (sgn x) = sgn x) ->
  input < next h ->
  exists h1 ctx1 out1 h2 ctx2 out2,
    forward ctx input h = (h1, ctx1, out1) /\
    forward ctx' out1 h1 = (h2, ctx2, out2) /\
    out2 <> out1 /\
    size (cell h2 out2) = size (cell h input) /\
    forall idx, in_range (size (cell h input)) idx ->
      at_ (cell h2 out2) idx = at_ (cell h2 out1) idx.
Proof.
  intros Hs Hi. unfold forward, alloc, save_for_backward. simpl.
  do 6 eexists. split; [reflexivity|]. split; [reflexivity|]. simpl.
  split; [lia|].
  repeat case_decide; try lia.
  split; [reflexivity|]. intros idx Hidx.
  unfold sign. rewrite at_tmap by (rewrite size_tmap; exact Hidx).
  rewrite at_tmap by exact Hidx. apply Hs.
Qed.

End WithArith.

Lemma forward_sign_witness :
  exists h' ctx' out,
    forward (mkCtx []) 0 one_tensor_heap = (h', ctx', out) /\
    storage (cell h' out) = [1; 0; -1]%Q /\
    cell h' 0 = cell one_tensor_heap 0.
Proof.
  destruct (forward_sign (mkCtx []) 0 one_tensor_heap)
    as (h' & ctx' & out & Hrun & Hout & _ & _ & _ & Hkeep).
  { simpl. lia. }
  exists h', ctx', out. split; [exact Hrun|].
  split; [|apply Hkeep; simpl; lia].
  injection Hrun as <- _ <-. reflexivity.
Defined.

(** Over the rationals the three cases of [forward] read: 1 where the
    input is positive, -1 where it is negative, 0 where it is zero. *)
Lemma sign_of_rationals (ctx : Ctx) (input : Ref) (h : Heap Q) :
  input < next h ->
  exists h' ctx' out,
    forward ctx input h = (h', ctx', out) /\
    out = next h /\
    saved_tensors ctx' = [input] /\
    size (cell h' out) = size (cell h input) /\
    (forall idx, in_range (size (cell h input)) idx ->
       at_ (cell h' out) idx = sgn (at_ (cell h input) idx) /\
       ((0 < at_ (cell h input) idx)%Q -> at_ (cell h' out) idx = 1%Q) /\
       ((at_ (cell h input) idx < 0)%Q -> at_ (cell h' out) idx = (-1)%Q) /\
       ((at_ (cell h input) idx == 0)%Q -> at_ (cell h' out) idx = 0%Q)) /\
    (forall r, r < next h -> cell h' r = cell h r).
Proof.
  intros Hin. unfold forward, alloc, save_for_backward.
  eexists. eexists. eexists. split; [reflexivity|]. simpl.
  split; [reflexivity|]. split; [reflexivity|].
  case_decide; [|congruence].
  split; [reflexivity|]. split.
  - intros idx Hi. unfold sign. rewrite at_tmap by exact Hi.
    split; [reflexivity|].
    destruct (Q_sgn_cases (at_ (cell h input) idx))
      as [[Hx ->]|[[Hx ->]|[Hx ->]]];
      repeat split; intros Hy; try reflexivity; exfalso; lra.
  - intros r Hr. case_decide; [lia | reflexivity].
Qed.

Lemma backward_identity_witness :
  exists h' grad_input,
    backward (mkCtx [0]) 1 two_tensor_heap = (h', Ok grad_input) /\
    cell h' grad_input = tensor1 [5; 7; -1]%Q /\
    cell h' 0 = tensor1 [2; 0; -3]%Q /\
    cell h' 1 = tensor1 [5; 7; -1]%Q.
Proof.
  destruct (backward_identity (mkCtx [0]) 0 1 two_tensor_heap)
    as (h' & gi & Hrun & _ & _ & _ & Hval & _ & Hkeep).
  { reflexivity. }
  { simpl. lia. }
  { simpl. lia. }
  exists h', gi. split; [exact Hrun|]. split; [rewrite Hval; reflexivity|].
  split; rewrite Hkeep by (simpl; lia); reflexivity.
Defined.

Lemma forward_then_backward_witness :
  0 < next two_tensor_heap /\ 1 <= next two_tensor_heap /\
  exists h1 ctx1 out h2 grad_input,
    forward (mkCtx []) 0 two_tensor_heap = (h1, ctx1, out) /\
    backward ctx1 1 h1 = (h2, Ok grad_input) /\
    grad_input <> out /\ grad_input <> 0 /\ grad_input <> 1 /\
    cell h2 grad_input = cell h1 1 /\
    cell h2 out = cell h1 out /\
    cell h2 0 = cell two_tensor_heap 0.
Proof.
  split; [simpl; lia|]. split; [simpl; lia|].
  apply (forward_then_backward (mkCtx []) 0 1 two_tensor_heap); simpl; lia.
Defined.

(** [X17] [forward] applied to its own output returns a new tensor with
    the entries of that output: the sign of a sign is the sign. *)
Theorem forward_twice (ctx ctx' : Ctx) (input : Ref) (h : Heap Q) :
  input < next h ->
  exists h1 ctx1 out1 h2 ctx2 out2,
    forward ctx input h = (h1, ctx1, out1) /\
    forward ctx' out1 h1 = (h2, ctx2, out2) /\
    out2 <> out1 /\
    size (cell h2 out2) = size (cell h input) /\
    forall idx, in_range (size (cell h input)) idx ->
      at_ (cell h2 out2) idx = at_ (cell h2 out1) idx.
Proof. apply forward_of_forward, sgn_sgn. Qed.

Lemma forward_twice_witness :
  0 < next one_tensor_heap /\
  exists h1 ctx1 out1 h2 ctx2 out2,
    forward (mkCtx []) 0 one_tensor_heap = (h1, ctx1, out1) /\
    forward (mkCtx []) out1 h1 = (h2, ctx2, out2) /\
    out2 <> out1 /\
    size (cell h2 out2) = size (cell one_tensor_heap 0) /\
    forall idx, in_range (size (cell one_tensor_heap 0)) idx ->
      at_ (cell h2 out2) idx = at_ (cell h2 out1) idx.
Proof.
  split; [simpl; lia|].
  apply (forward_twice (mkCtx []) (mkCtx []) 0 one_tensor_heap). simpl; lia.
Defined.

(** The same in binary32, NaN and infinities included. *)
Lemma forward_of_forward_binary32 (ctx ctx' : Ctx) (input : Ref)
    (h : Heap spec_float) :
  input < next h ->
  exists h1 ctx1 out1 h2 ctx2 out2,
    forward ctx input h = (h1, ctx1, out1) /\
    forward ctx' out1 h1 = (h2, ctx2, out2) /\
    out2 <> out1 /\
    size (cell h2 out2) = size (cell h input) /\
    forall idx, in_range (size (cell h input)) idx ->
      at_ (cell h2 out2) idx = at_ (cell h2 out1) idx.
Proof. apply forward_of_forward, b32_sgn_sgn. Qed.

End BinaryActivationFacts.

(** * Properties of the tensor regression layer *)

Module TRLFacts.
Import TRL.

Lemma as_ints_ints (l : list nat) : as_ints (map PyInt l) = Built l.
Proof. induction l as [|n l IH]; cbn; [reflexivity|]. now rewrite IH. Qed.

Lemma add_factors_ints (a b : list nat) (acc : list (list nat)) :
  add_factors (zip (map PyInt a) (map PyInt b)) acc =
  Built (acc ++ zip_with (fun n r => [n; r]) a b).
Proof.
  revert b acc. induction a as [|n a IH]; intros [|r b] acc; cbn;
    rewrite ?app_nil_r; try reflexivity.
  rewrite IH, <- app_assoc. reflexivity.
Qed.

Lemma tail_ints (l : list nat) : tail (map PyInt l) = map PyInt (tail l).
Proof. now destruct l. Qed.

Lemma init_sequences (i r o : list nat) (verbose : nat) :
  __init__ (PySeq i) (PySeq r) (PySeq o) verbose =
  Built (mkLayer (map PyInt r) verbose (map PyInt i) (map PyInt o)
           (np_prod (tail o)) r [1]
           (zip_with (fun n k => [n; k]) (tail i ++ tail o) r)).
Proof.
  unfold __init__, list_, from_1, isinstance_int, bbind.
  rewrite !as_ints_ints, !tail_ints, <- map_app, add_factors_ints.
  reflexivity.
Qed.

Lemma exact_prod_nonneg (l : list nat) : (0 <= exact_prod l)%Z.
Proof.
  induction l as [|n l IH]; [cbn; lia|].
  change (exact_prod (n :: l)) with (Z.of_nat n * exact_prod l)%Z.
  apply Z.mul_nonneg_nonneg; lia.
Qed.

(** A product below 2^63 is not changed by the machine integers. *)
Lemma np_prod_exact (l : list nat) :
  (exact_prod l < 2 ^ 63)%Z -> np_prod l = exact_prod l.
Proof.
  intros H. pose proof (exact_prod_nonneg l) as H0. unfold np_prod.
  destruct (forallb _ l); [|destruct (forallb _ l)].
  - unfold wrap_int64. rewrite Z.mod_small; lia.
  - unfold wrap_uint64. rewrite Z.mod_small; lia.
  - reflexivity.
Qed.

(** [X18] The constructor raises [TypeError] exactly when one of
    [input_size], [ranks] and [output_size] is a single [int]: the
    [isinstance] branches notwithstanding, the three must be
    sequences. *)
Theorem int_size_rejected (input_size ranks output_size : Value) (verbose : nat) :
  __init__ input_size ranks output_size verbose = TypeError <->
  isinstance_int input_size || isinstance_int ranks
    || isinstance_int output_size = true.
Proof.
  destruct input_size as [i|i], ranks as [r|r], output_size as [o|o];
    try (cbn; split; intro; congruence).
  rewrite init_sequences. cbn. split; intro; congruence.
Qed.


(** With sixty-four output axes of size 2 after the first, the layer is
    built and [n_outputs] is 0, not 2^64. *)
Lemma n_outputs_wraps :
  exists l,
    __init__ (PySeq [1; 2]) (PySeq [1]) (PySeq (1 :: repeat 2 64)) 1 = Built l /\
    n_outputs l = 0%Z /\
    exact_prod (repeat 2 64) = (2 ^ 64)%Z.
Proof.
  eexists. split; [vm_compute; reflexivity|]. split; vm_compute; reflexivity.
Qed.

End TRLFacts.
